(** * Sync-Player server: a shallow embedding of the socket handlers of
    [server.js] (single-room "legacy" mode and multi-room server mode).

    JS values are modelled with the shape the handlers use: numbers that the
    handlers treat as integers are [Z]; strings are [String.string]; a JS
    [Map] or a plain object used as a map is an association list kept in
    insertion order (module [JsMap]).  Socket.io emissions are recorded as a
    list of [Out] values in the order the handler performs them. *)

From Stdlib Require Import String Ascii ZArith List Bool Lia.
Import ListNotations.
Open Scope string_scope.
Open Scope list_scope.
Open Scope Z_scope.

(** ** JS [Map] / object-as-map: association list in insertion order *)
Module JsMap.
Section M.
Context {V : Type}.

Fixpoint get (k : string) (m : list (string * V)) : option V :=
  match m with
  | [] => None
  | (k', v) :: r => if String.eqb k k' then Some v else get k r
  end.

(** [m.set(k, v)]: replaces in place, or appends a new key. *)
Fixpoint set (k : string) (v : V) (m : list (string * V)) : list (string * V) :=
  match m with
  | [] => [(k, v)]
  | (k', v') :: r => if String.eqb k k' then (k', v) :: r else (k', v') :: set k v r
  end.

Fixpoint delete (k : string) (m : list (string * V)) : list (string * V) :=
  match m with
  | [] => []
  | (k', v') :: r => if String.eqb k k' then delete k r else (k', v') :: delete k r
  end.

Definition has (k : string) (m : list (string * V)) : bool :=
  match get k m with Some _ => true | None => false end.
End M.
End JsMap.

(** Integer-keyed JS object ([obj[index] = v]); same discipline. *)
Module ZMap.
Section M.
Context {V : Type}.
Fixpoint get (k : Z) (m : list (Z * V)) : option V :=
  match m with
  | [] => None
  | (k', v) :: r => if Z.eqb k k' then Some v else get k r
  end.
Fixpoint set (k : Z) (v : V) (m : list (Z * V)) : list (Z * V) :=
  match m with
  | [] => [(k, v)]
  | (k', v') :: r => if Z.eqb k k' then (k', v) :: r else (k', v') :: set k v r
  end.
End M.
End ZMap.

(** ** ASCII string helpers ([toLowerCase], [toUpperCase], [includes], ...) *)
Definition ascii_lower (c : ascii) : ascii :=
  let n := nat_of_ascii c in
  if (65 <=? n)%nat && (n <=? 90)%nat then ascii_of_nat (n + 32) else c.

Definition ascii_upper (c : ascii) : ascii :=
  let n := nat_of_ascii c in
  if (97 <=? n)%nat && (n <=? 122)%nat then ascii_of_nat (n - 32) else c.

Fixpoint smap (f : ascii -> ascii) (s : string) : string :=
  match s with
  | EmptyString => EmptyString
  | String c r => String (f c) (smap f r)
  end.

Definition toLowerCase (s : string) : string := smap ascii_lower s.
Definition toUpperCase (s : string) : string := smap ascii_upper s.

(** [s.startsWith(p)] *)
Definition startsWith (s p : string) : bool := String.prefix p s.

(** [s.includes(p)] *)
Fixpoint includes (s p : string) : bool :=
  if String.prefix p s then true
  else match s with
       | EmptyString => false
       | String _ r => includes r p
       end.

Definition has_char (c : ascii) (s : string) : bool :=
  existsb (fun d => Ascii.eqb c d) (list_ascii_of_string s).

(** [s.lastIndexOf(ch)] for a one-character needle; [-1] when absent. *)
Definition lastIndexOf (s : string) (c : ascii) : Z :=
  fst (fold_left (fun '(best, i) d => (if Ascii.eqb c d then i else best, i + 1))
                 (list_ascii_of_string s) (-1, 0)).

(** [s.substring(i)] for [i] possibly negative (clamped to 0, as in JS). *)
Definition substring_from (s : string) (i : Z) : string :=
  String.substring (Z.to_nat (Z.max 0 i)) (String.length s) s.

(** [s.split('/')[0]]: the part before the first ['/']. *)
Fixpoint before_slash (s : string) : string :=
  match s with
  | EmptyString => EmptyString
  | String c r => if Ascii.eqb c "/"%char then EmptyString else String c (before_slash r)
  end.

(** [path.basename] (POSIX): last non-empty ['/']-separated segment. *)
Fixpoint split_slash (s : string) (cur : string) : list string :=
  match s with
  | EmptyString => [cur]
  | String c r =>
      if Ascii.eqb c "/"%char then cur :: split_slash r EmptyString
      else split_slash r (cur ++ String c EmptyString)%string
  end.

Definition basename (s : string) : string :=
  match filter (fun seg => negb (String.eqb seg "")) (rev (split_slash s "")) with
  | seg :: _ => seg
  | [] => ""
  end.

(** [arr[i]] for an integer index; [undefined] (here [None]) out of range. *)
Definition nth_z {A} (i : Z) (l : list A) : option A :=
  if i <? 0 then None else nth_error l (Z.to_nat i).

(** [arr[i] = x] for an index already checked to be in range. *)
Fixpoint replace_nth {A} (n : nat) (x : A) (l : list A) : list A :=
  match l, n with
  | [], _ => []
  | _ :: r, O => x :: r
  | y :: r, S n' => y :: replace_nth n' x r
  end.

(** ** Data model *)

Record Config := mkConfig {
  SERVER_MODE : bool;
  ADMIN_FINGERPRINT_LOCK : bool;
  JOIN_MODE : string;
  VIDEO_AUTOPLAY : bool;
  BSL_ADVANCED_MATCH : bool;
  BSL_ADVANCED_MATCH_THRESHOLD : Z
}.

(** A playlist entry as received in [set-playlist] and then stored
    ([tracks] is the probe result, which no claim here inspects). *)
Record Video := mkVideo {
  filename : string;
  isExternal : bool;
  selectedAudioTrack : option Z;
  selectedSubtitleTrack : option Z;
  usesHEVC : bool
}.

Record Playlist := mkPlaylist {
  videos : list Video;
  currentIndex : Z;
  mainVideoIndex : Z;
  mainVideoStartTime : Z;
  preloadMainVideo : bool
}.

Record VideoState := mkVideoState {
  isPlaying : bool;
  currentTime : Z;
  lastUpdate : Z;
  audioTrack : Z;
  subtitleTrack : Z
}.

Record Client := mkClient { fingerprint : string; cname : string }.

Record ClientFile := mkClientFile {
  name : string;
  size : option Z;
  type : option string
}.

Record BslStatus := mkBslStatus {
  clientId : string;
  clientName : string;
  folderSelected : bool;
  files : list ClientFile;
  matchedVideos : list (Z * string)
}.

Record Room := mkRoom {
  code : string;
  roomName : string;
  adminFingerprint : string;
  adminSocketId : option string;
  clients : list (string * Client);
  playlist : Playlist;
  videoState : VideoState;
  clientBslStatus : list (string * BslStatus);
  clientDriftValues : list (string * list (Z * Z))
}.

(** The module-level state of [server.js].  [sockets] maps each connected
    socket id to the socket.io channels it has joined. *)
Record World := mkWorld {
  rooms : list (string * Room);
  socketRoomMap : list (string * string);
  PLAYLIST : Playlist;
  gVideoState : VideoState;
  gClientBslStatus : list (string * BslStatus);
  gAdminSocketId : option string;
  verifiedAdminSockets : list string;
  connectedClients : list (string * string);
  gClientDriftValues : list (string * list (Z * Z));
  registeredAdminFingerprint : option string;
  memoryAdminFingerprint : option string;
  persistentBslMatches : list (string * list (string * string));
  sockets : list (string * list string)
}.

Inductive Target := ToSocket (sid : string) | ToChannel (ch : string) | ToAll.

Inductive Payload :=
| PSync (vs : VideoState)
| PPlaylist (p : Playlist)
| PIndex (i : Z)
| PAdminError (event : string)
| PAuth (success : bool) (reason : option string)
| PDrift (driftValues : list (Z * Z))
| PRoomDeleted (roomCode : string)
| PMatch (matched : list (Z * string)) (totalMatched totalPlaylist : Z)
| PStatus
| PCount
| PConfig
| PResult (success : bool).

(** Observable effects, in program order. *)
Inductive Out :=
| Emit (t : Target) (ev : string) (p : Payload)
| Probe (file : string)            (* execFile('ffprobe', [..., path.join(ROOT_DIR,'media',file)]) *)
| Timer (ms : Z) (what : string)   (* setTimeout(..., ms) *)
| DisconnectAfter (sid : string) (ms : Z)
| Throws.                          (* TypeError escaping the handler *)

Definition getRoom (c : string) (w : World) : option Room :=
  JsMap.get (toUpperCase c) (rooms w).

(** [new Room(code, name, isPrivate, adminFingerprint)] *)
Definition new_room (c n fp : string) (now : Z) : Room :=
  mkRoom c n fp None []
    (mkPlaylist [] (-1) (-1) 0 false)
    (mkVideoState true 0 now 0 (-1))
    [] [].

(** ** Field updates (JS assignments to one property) *)
Definition set_currentIndex (p : Playlist) (i : Z) : Playlist :=
  mkPlaylist (videos p) i (mainVideoIndex p) (mainVideoStartTime p) (preloadMainVideo p).
Definition set_videos (p : Playlist) (vs : list Video) : Playlist :=
  mkPlaylist vs (currentIndex p) (mainVideoIndex p) (mainVideoStartTime p) (preloadMainVideo p).
Definition set_mainVideoIndex (p : Playlist) (i : Z) : Playlist :=
  mkPlaylist (videos p) (currentIndex p) i (mainVideoStartTime p) (preloadMainVideo p).

Definition set_tracks (s : VideoState) (a t : Z) : VideoState :=
  mkVideoState (isPlaying s) (currentTime s) (lastUpdate s) a t.
Definition set_currentTime (s : VideoState) (t : Z) : VideoState :=
  mkVideoState (isPlaying s) t (lastUpdate s) (audioTrack s) (subtitleTrack s).
Definition set_lastUpdate (s : VideoState) (t : Z) : VideoState :=
  mkVideoState (isPlaying s) (currentTime s) t (audioTrack s) (subtitleTrack s).
Definition set_isPlaying (s : VideoState) (b : bool) : VideoState :=
  mkVideoState b (currentTime s) (lastUpdate s) (audioTrack s) (subtitleTrack s).

(** [video.selectedAudioTrack !== undefined ? ... : 0] and the subtitle analogue *)
Definition entry_audio (v : Video) : Z :=
  match selectedAudioTrack v with Some a => a | None => 0 end.
Definition entry_subtitle (v : Video) : Z :=
  match selectedSubtitleTrack v with Some s => s | None => -1 end.

(** ** Target resolution shared by the handlers

    The handlers start with [targetRoomCode = socketRoomMap.get(socket.id)],
    [room = getRoom(targetRoomCode)] (returning when either is missing and,
    for admin handlers, when [room.adminSocketId !== socket.id]) in server
    mode, and use the module-level [PLAYLIST], [videoState], ... otherwise. *)
Record Scope := mkScope {
  sc_code : option string;
  sc_playlist : Playlist;
  sc_state : VideoState;
  sc_bsl : list (string * BslStatus);
  sc_drift : list (string * list (Z * Z));
  sc_admin : option string
}.

Definition is_sid (o : option string) (sid : string) : bool :=
  match o with Some s => String.eqb s sid | None => false end.

Definition room_scope (rc : string) (r : Room) : Scope :=
  mkScope (Some rc) (playlist r) (videoState r) (clientBslStatus r) (clientDriftValues r)
    (adminSocketId r).

Definition legacy_scope (w : World) : Scope :=
  mkScope None (PLAYLIST w) (gVideoState w) (gClientBslStatus w) (gClientDriftValues w)
    (gAdminSocketId w).

Definition resolve (cfg : Config) (w : World) (sid : string) (admin_only : bool)
  : option Scope :=
  if SERVER_MODE cfg then
    match JsMap.get sid (socketRoomMap w) with
    | None => None
    | Some rc =>
        match getRoom rc w with
        | None => None
        | Some r =>
            if admin_only && negb (is_sid (adminSocketId r) sid) then None
            else Some (room_scope rc r)
        end
    end
  else Some (legacy_scope w).

Definition set_rooms (w : World) (rs : list (string * Room)) : World :=
  mkWorld rs (socketRoomMap w) (PLAYLIST w) (gVideoState w) (gClientBslStatus w)
    (gAdminSocketId w) (verifiedAdminSockets w) (connectedClients w)
    (gClientDriftValues w) (registeredAdminFingerprint w) (memoryAdminFingerprint w)
    (persistentBslMatches w) (sockets w).

(** The in-place mutations of [targetPlaylist], [targetVideoState], ... land
    in the room object (server mode) or in the module-level variables. *)
Definition commit (w : World) (sc : Scope) : World :=
  match sc_code sc with
  | Some rc =>
      match getRoom rc w with
      | Some r =>
          set_rooms w
            (JsMap.set (toUpperCase rc)
               (mkRoom (code r) (roomName r) (adminFingerprint r) (adminSocketId r)
                  (clients r) (sc_playlist sc) (sc_state sc) (sc_bsl sc) (sc_drift sc))
               (rooms w))
      | None => w
      end
  | None =>
      mkWorld (rooms w) (socketRoomMap w) (sc_playlist sc) (sc_state sc) (sc_bsl sc)
        (gAdminSocketId w) (verifiedAdminSockets w) (connectedClients w)
        (sc_drift sc) (registeredAdminFingerprint w) (memoryAdminFingerprint w)
        (persistentBslMatches w) (sockets w)
  end.

(** [io.to(targetRoomCode).emit] in server mode, [io.emit] otherwise. *)
Definition fanout (sc : Scope) : Target :=
  match sc_code sc with Some rc => ToChannel rc | None => ToAll end.

Definition run (cfg : Config) (w : World) (sid : string) (admin_only : bool)
    (body : Scope -> Scope * list Out) : World * list Out :=
  match resolve cfg w sid admin_only with
  | None => (w, [])
  | Some sc => let '(sc', outs) := body sc in (commit w sc', outs)
  end.

Definition with_pl_st (sc : Scope) (p : Playlist) (st : VideoState) : Scope :=
  mkScope (sc_code sc) p st (sc_bsl sc) (sc_drift sc) (sc_admin sc).

Definition len_z {A} (l : list A) : Z := Z.of_nat (length l).

(** [s.endsWith(suf)] *)
Definition endsWith (s suf : string) : bool :=
  let n := String.length s in
  let k := String.length suf in
  (k <=? n)%nat && String.eqb (String.substring (n - k) k s) suf.

(** ** [set-playlist] *)

(** One iteration of the [for (const item of data.playlist)] loop:
    [getTracksForFile(item.filename)] is called for non-external entries and
    runs [ffprobe] on [path.join(ROOT_DIR, 'media', path.basename(filename))]. *)
Definition process_item (item : Video) : Video * list Out :=
  (mkVideo (filename item) (isExternal item) (selectedAudioTrack item)
     (selectedSubtitleTrack item) (endsWith (filename item) ".mkv"),
   if isExternal item then [] else [Probe (basename (filename item))]).

Definition set_playlist_body (cfg : Config) (sid : string) (items : list Video)
    (mainIdx startTime now : Z) (sc : Scope) : Scope * list Out :=
  if match sc_code sc with Some _ => negb (is_sid (sc_admin sc) sid) | None => false end
  then (sc, [Emit (ToSocket sid) "playlist-set" (PResult false)]) else
  let processed := map (fun i => fst (process_item i)) items in
  let probes := flat_map (fun i => snd (process_item i)) items in
  let p' := mkPlaylist processed 0 mainIdx startTime true in
  let st := sc_state sc in
  let st1 := match processed with
             | v :: _ => set_tracks st (entry_audio v) (entry_subtitle v)
             | [] => st
             end in
  let st2 := set_lastUpdate (set_currentTime st1 0) now in
  let st3 := set_isPlaying st2 (VIDEO_AUTOPLAY cfg) in
  (with_pl_st sc p' st3,
   probes ++
   [Emit (fanout sc) "playlist-update" (PPlaylist p');
    Emit (fanout sc) "sync" (PSync st3)] ++
   (if VIDEO_AUTOPLAY cfg then [] else [Timer 500 "isPlaying = false; sync"]) ++
   [Emit (ToSocket sid) "playlist-set" (PResult true)]).

Definition set_playlist (cfg : Config) (w : World) (sid : string) (items : list Video)
    (mainIdx startTime now : Z) : World * list Out :=
  run cfg w sid false (set_playlist_body cfg sid items mainIdx startTime now).

(** ** [skip-to-next-video] *)
Definition skip_to_next_body (now : Z) (sc : Scope) : Scope * list Out :=
  let p := sc_playlist sc in
  if len_z (videos p) =? 0 then (sc, []) else
  let nextIndex := Z.rem (currentIndex p + 1) (len_z (videos p)) in
  let p' := set_currentIndex p nextIndex in
  match nth_z nextIndex (videos p) with
  | None => (with_pl_st sc p' (sc_state sc), [Throws])
  | Some v =>
      let st' := set_lastUpdate
                   (set_currentTime (set_tracks (sc_state sc) (entry_audio v) (entry_subtitle v)) 0)
                   now in
      (with_pl_st sc p' st',
       [Emit (fanout sc) "sync" (PSync st'); Emit (fanout sc) "playlist-position" (PIndex nextIndex);
        Emit (fanout sc) "playlist-update" (PPlaylist p')])
  end.

Definition skip_to_next_video (cfg : Config) (w : World) (sid : string) (now : Z)
  : World * list Out :=
  run cfg w sid true (skip_to_next_body now).

(** ** [playlist-next] (no admin check, no bound check) *)
Definition playlist_next_body (nextIndex now : Z) (sc : Scope) : Scope * list Out :=
  let p' := set_currentIndex (sc_playlist sc) nextIndex in
  let st1 := match nth_z nextIndex (videos (sc_playlist sc)) with
             | Some v => set_tracks (sc_state sc) (entry_audio v) (entry_subtitle v)
             | None => sc_state sc
             end in
  let st2 := set_lastUpdate st1 now in
  (with_pl_st sc p' st2,
   [Emit (fanout sc) "sync" (PSync st2); Emit (fanout sc) "playlist-position" (PIndex nextIndex)]).

Definition playlist_next (cfg : Config) (w : World) (sid : string) (nextIndex now : Z)
  : World * list Out :=
  run cfg w sid false (playlist_next_body nextIndex now).

(** ** [playlist-jump] (integer index; [validatePlaylistIndex]) *)
Definition validatePlaylistIndex (idx : Z) (p : Playlist) : bool :=
  (0 <=? idx) && (idx <? len_z (videos p)).

Definition playlist_jump_body (index now : Z) (sc : Scope) : Scope * list Out :=
  let p := sc_playlist sc in
  if negb (validatePlaylistIndex index p) then (sc, []) else
  let p' := set_currentIndex p index in
  match nth_z index (videos p) with
  | None => (with_pl_st sc p' (sc_state sc), [Throws])
  | Some v =>
      let st' := set_lastUpdate
                   (set_currentTime (set_tracks (sc_state sc) (entry_audio v) (entry_subtitle v)) 0)
                   now in
      (with_pl_st sc p' st',
       [Emit (fanout sc) "sync" (PSync st'); Emit (fanout sc) "playlist-position" (PIndex index);
        Emit (fanout sc) "playlist-update" (PPlaylist p')])
  end.

Definition playlist_jump (cfg : Config) (w : World) (sid : string) (index now : Z)
  : World * list Out :=
  run cfg w sid true (playlist_jump_body index now).

(** ** [playlist-reorder] *)
Definition swap_entries {A} (l : list A) (f t : Z) : list A :=
  match nth_z f l, nth_z t l with
  | Some vf, Some vt => replace_nth (Z.to_nat t) vf (replace_nth (Z.to_nat f) vt l)
  | _, _ => l
  end.

Definition playlist_reorder_body (fromIndex toIndex : Z) (sc : Scope) : Scope * list Out :=
  let p := sc_playlist sc in
  let n := len_z (videos p) in
  if (fromIndex <? 0) || (fromIndex >=? n) || (toIndex <? 0) || (toIndex >=? n) then (sc, []) else
  let p1 := set_videos p (swap_entries (videos p) fromIndex toIndex) in
  let p2 := if mainVideoIndex p1 =? fromIndex then set_mainVideoIndex p1 toIndex
            else if mainVideoIndex p1 =? toIndex then set_mainVideoIndex p1 fromIndex
            else p1 in
  let p3 := if currentIndex p2 =? fromIndex then set_currentIndex p2 toIndex
            else if currentIndex p2 =? toIndex then set_currentIndex p2 fromIndex
            else p2 in
  (with_pl_st sc p3 (sc_state sc), [Emit (fanout sc) "playlist-update" (PPlaylist p3)]).

Definition playlist_reorder (cfg : Config) (w : World) (sid : string) (fromIndex toIndex : Z)
  : World * list Out :=
  run cfg w sid true (playlist_reorder_body fromIndex toIndex).

(** ** [validateFilename] (the validator used by [/api/tracks]) *)

Definition is_word_char (c : ascii) : bool :=
  let n := nat_of_ascii c in
  ((48 <=? n) && (n <=? 57))%nat || ((65 <=? n) && (n <=? 90))%nat ||
  ((97 <=? n) && (n <=? 122))%nat || (n =? 95)%nat.

(** [\s] restricted to ASCII: space, \t, \n, \v, \f, \r *)
Definition is_space_char (c : ascii) : bool :=
  let n := nat_of_ascii c in (n =? 32)%nat || ((9 <=? n) && (n <=? 13))%nat.

(** one character of [/^[\w\s\-.()\[\]]+$/] *)
Definition safe_char (c : ascii) : bool :=
  is_word_char c || is_space_char c || has_char c "-.()[]".

(** [/[;&|$`<>\n\r]/] *)
Definition shell_metachar (c : ascii) : bool :=
  has_char c ";&|$`<>" || (nat_of_ascii c =? 10)%nat || (nat_of_ascii c =? 13)%nat.

Definition validateFilename (f : string) : bool :=
  if String.eqb f "" then false
  else if (255 <? String.length f)%nat then false
  else if includes f ".." || includes f "/" || includes f "\" then false
  else if existsb shell_metachar (list_ascii_of_string f) then false
  else forallb safe_char (list_ascii_of_string f).

(** ** Admin authorization middleware ([socket.use]) *)

Definition ADMIN_ONLY_EVENTS : list string :=
  ["set-playlist"; "playlist-reorder"; "playlist-jump"; "track-change";
   "skip-to-next-video"; "bsl-admin-register"; "bsl-check-request"; "bsl-get-status";
   "bsl-manual-match"; "bsl-set-drift"; "set-client-name"; "get-client-list";
   "set-client-display-name"; "delete-room"; "create-room"].

Definition isSocketAdmin (cfg : Config) (w : World) (sid : string) : bool :=
  if SERVER_MODE cfg then
    match JsMap.get sid (socketRoomMap w) with
    | None => false
    | Some rc =>
        match getRoom rc w with
        | None => false
        | Some r => is_sid (adminSocketId r) sid
        end
    end
  else if negb (ADMIN_FINGERPRINT_LOCK cfg) then true
  else existsb (String.eqb sid) (verifiedAdminSockets w).

(** [None] = [next()]; [Some o] = blocked after emitting [o]. *)
Definition admin_gate (cfg : Config) (w : World) (sid ev : string) : option Out :=
  if existsb (String.eqb ev) ADMIN_ONLY_EVENTS then
    if String.eqb ev "create-room" || String.eqb ev "bsl-admin-register" then None
    else if negb (isSocketAdmin cfg w sid) then
      Some (Emit (ToSocket sid) "admin-error" (PAdminError ev))
    else None
  else None.

(** Dispatch of event [ev] through the middleware to its handler. *)
Definition route (cfg : Config) (w : World) (sid ev : string)
    (handler : World -> World * list Out) : World * list Out :=
  match admin_gate cfg w sid ev with
  | Some o => (w, [o])
  | None => handler w
  end.

(** ** [bsl-admin-register] *)

Definition set_admin_fields (w : World) (verified : list string) (adm : option string)
    (reg mem : option string) : World :=
  mkWorld (rooms w) (socketRoomMap w) (PLAYLIST w) (gVideoState w) (gClientBslStatus w)
    adm verified (connectedClients w) (gClientDriftValues w) reg mem
    (persistentBslMatches w) (sockets w).

(** [Set.prototype.add] *)
Definition set_add (x : string) (s : list string) : list string :=
  if existsb (String.eqb x) s then s else s ++ [x].

Definition truthy (o : option string) : bool :=
  match o with Some s => negb (String.eqb s "") | None => false end.

Definition admin_register_ok (w : World) (sid : string) (reg mem : option string)
  : World * list Out :=
  (set_admin_fields w (set_add sid (verifiedAdminSockets w)) (Some sid) reg mem,
   [Emit (ToSocket sid) "admin-auth-result" (PAuth true None)]).

Definition bsl_admin_register (cfg : Config) (w : World) (sid : string)
    (fp : option string) : World * list Out :=
  let reg := registeredAdminFingerprint w in
  let mem := memoryAdminFingerprint w in
  if ADMIN_FINGERPRINT_LOCK cfg then
    match fp with
    | Some f =>
        if negb (truthy fp) then
          (w, [Emit (ToSocket sid) "admin-auth-result" (PAuth false (Some "No fingerprint provided"))])
        else
          match reg with
          | None => admin_register_ok w sid (Some f) (Some f)   (* setAdminFingerprint(f) *)
          | Some r =>
              if negb (String.eqb r f) then
                (w, [Emit (ToSocket sid) "admin-auth-result"
                       (PAuth false (Some "Unauthorized device. This admin panel is locked to a different machine."));
                     DisconnectAfter sid 1000])
              else admin_register_ok w sid reg mem
          end
    | None =>
        (w, [Emit (ToSocket sid) "admin-auth-result" (PAuth false (Some "No fingerprint provided"))])
    end
  else admin_register_ok w sid reg mem.

(** ** Socket.io delivery *)

Definition set_sockets (w : World) (ss : list (string * list string)) : World :=
  mkWorld (rooms w) (socketRoomMap w) (PLAYLIST w) (gVideoState w) (gClientBslStatus w)
    (gAdminSocketId w) (verifiedAdminSockets w) (connectedClients w)
    (gClientDriftValues w) (registeredAdminFingerprint w) (memoryAdminFingerprint w)
    (persistentBslMatches w) ss.

(** The socket ids an emission reaches in world [w]. *)
Definition recipients (w : World) (t : Target) : list string :=
  match t with
  | ToSocket s => if JsMap.has s (sockets w) then [s] else []
  | ToChannel ch =>
      map fst (filter (fun '(_, chs) => existsb (String.eqb ch) chs) (sockets w))
  | ToAll => map fst (sockets w)
  end.

(** ** Connection in single-room mode ([io.on('connection')], [!SERVER_MODE] block) *)

Definition getCurrentTrackSelections (p : Playlist) : Z * Z :=
  if (0 <? len_z (videos p)) && (0 <=? currentIndex p) && (currentIndex p <? len_z (videos p))
  then match nth_z (currentIndex p) (videos p) with
       | Some v => (entry_audio v, entry_subtitle v)
       | None => (0, -1)
       end
  else (0, -1).

Definition set_gVideoState (w : World) (st : VideoState) : World :=
  mkWorld (rooms w) (socketRoomMap w) (PLAYLIST w) st (gClientBslStatus w)
    (gAdminSocketId w) (verifiedAdminSockets w) (connectedClients w)
    (gClientDriftValues w) (registeredAdminFingerprint w) (memoryAdminFingerprint w)
    (persistentBslMatches w) (sockets w).

(** The socket [sid] has connected (it sits in its own channel [sid]). *)
Definition on_connection_legacy (cfg : Config) (w : World) (sid : string) (now : Z)
  : World * list Out :=
  let w0 := set_sockets w (sockets w ++ [(sid, [sid])]) in
  let '(a, s) := getCurrentTrackSelections (PLAYLIST w0) in
  let st := set_tracks (gVideoState w0) a s in
  let pre := [Emit ToAll "client-count" PCount;               (* broadcastClientCount() *)
              Emit (ToSocket sid) "config" PConfig;
              Emit (ToSocket sid) "playlist-update" (PPlaylist (PLAYLIST w0))] in
  if String.eqb (JOIN_MODE cfg) "reset" then
    let st' := set_lastUpdate (set_currentTime st 0) now in
    (set_gVideoState w0 st', pre ++ [Emit ToAll "sync" (PSync st')])
  else
    (set_gVideoState w0 st, pre ++ [Emit (ToSocket sid) "sync" (PSync st)]).

(** ** [bsl-folder-selected]: the matcher *)

Definition SIZE_TOLERANCE : Z := 1572864.   (* 1.5 * 1024 * 1024 *)

Definition mimeMap (ext : string) : option string :=
  if String.eqb ext ".mp4" then Some "video/mp4"
  else if String.eqb ext ".mkv" then Some "video/x-matroska"
  else if String.eqb ext ".webm" then Some "video/webm"
  else if String.eqb ext ".avi" then Some "video/x-msvideo"
  else if String.eqb ext ".mov" then Some "video/quicktime"
  else if String.eqb ext ".wmv" then Some "video/x-ms-wmv"
  else if String.eqb ext ".mp3" then Some "audio/mpeg"
  else if String.eqb ext ".png" then Some "image/png"
  else if String.eqb ext ".jpg" then Some "image/jpeg"
  else if String.eqb ext ".jpeg" then Some "image/jpeg"
  else if String.eqb ext ".webp" then Some "image/webp"
  else None.

(** [name.substring(name.lastIndexOf('.')).toLowerCase()] *)
Definition ext_of (s : string) : string :=
  toLowerCase (substring_from s (lastIndexOf s ".")).

Definition b2z (b : bool) : Z := if b then 1 else 0.

(** The four criteria of the advanced matcher; [disk] is [fs.statSync(...).size]
    of [path.join(ROOT_DIR, 'media', filename)] ([None] when [statSync] throws). *)
Definition name_point (cf : ClientFile) (v : Video) : Z :=
  b2z (String.eqb (toLowerCase (name cf)) (toLowerCase (filename v))).

Definition ext_point (cf : ClientFile) (v : Video) : Z :=
  b2z (String.eqb (ext_of (name cf)) (ext_of (filename v))).

Definition size_point (disk : string -> option Z) (cf : ClientFile) (v : Video) : Z :=
  match size cf with
  | Some s =>
      match disk (filename v) with
      | Some ss => b2z (Z.abs (s - ss) <=? SIZE_TOLERANCE)
      | None => 0
      end
  | None => 0
  end.

Definition mime_point (cf : ClientFile) (v : Video) : Z :=
  match type cf with
  | Some t =>
      if (0 <? String.length t)%nat then
        let expectedMime := match mimeMap (ext_of (filename v)) with Some m => m | None => "" end in
        b2z (String.eqb t expectedMime || startsWith t (before_slash expectedMime))
      else 0
  | None => 0
  end.

Definition matchScore (disk : string -> option Z) (cf : ClientFile) (v : Video) : Z :=
  name_point cf v + ext_point cf v + size_point disk cf v + mime_point cf v.

(** Decision for one (client file, playlist entry) pair. *)
Definition pair_matches (cfg : Config) (disk : string -> option Z)
    (clientMatches : list (string * string)) (cf : ClientFile) (v : Video) : bool :=
  if match JsMap.get (toLowerCase (name cf)) clientMatches with
     | Some m => String.eqb m (toLowerCase (filename v))
     | None => false
     end
  then true                                   (* persistent match *)
  else if BSL_ADVANCED_MATCH cfg then BSL_ADVANCED_MATCH_THRESHOLD cfg <=? matchScore disk cf v
  else String.eqb (toLowerCase (name cf)) (toLowerCase (filename v)).

Definition match_files (cfg : Config) (disk : string -> option Z)
    (clientMatches : list (string * string)) (fs : list ClientFile) (vs : list Video)
  : list (Z * string) :=
  fold_left
    (fun acc cf =>
       snd (fold_left
              (fun '(i, m) v =>
                 (i + 1, if pair_matches cfg disk clientMatches cf v then ZMap.set i (name cf) m else m))
              vs (0, acc)))
    fs [].

Definition with_bsl (sc : Scope) (b : list (string * BslStatus)) : Scope :=
  mkScope (sc_code sc) (sc_playlist sc) (sc_state sc) b (sc_drift sc) (sc_admin sc).
Definition with_drift (sc : Scope) (d : list (string * list (Z * Z))) : Scope :=
  mkScope (sc_code sc) (sc_playlist sc) (sc_state sc) (sc_bsl sc) d (sc_admin sc).

(** [a || b] on a string field that may be missing or empty *)
Definition or_default (o : option string) (d : string) : string :=
  match o with Some s => if String.eqb s "" then d else s | None => d end.

(** [s.slice(-6)] *)
Definition slice_last6 (s : string) : string :=
  String.substring (String.length s - 6) 6 s.

(** [sendBslStatusToAdmin(...)] *)
Definition status_to_admin (sc : Scope) : list Out :=
  match sc_admin sc with
  | Some a => [Emit (ToSocket a) "bsl-status-update" PStatus]
  | None => []
  end.

Definition folder_selected_body (cfg : Config) (disk : string -> option Z) (w : World)
    (sid : string) (clientIdField clientNameField : option string) (fs : list ClientFile)
    (sc : Scope) : Scope * list Out :=
  let cid := or_default clientIdField sid in
  let clientMatches := match JsMap.get cid (persistentBslMatches w) with
                       | Some m => m | None => [] end in
  let vs := videos (sc_playlist sc) in
  let matched := match_files cfg disk clientMatches fs vs in
  let entry := mkBslStatus cid (or_default clientNameField (slice_last6 cid)) true fs matched in
  let sc' := with_bsl sc (JsMap.set sid entry (sc_bsl sc)) in
  (sc', status_to_admin sc' ++
        [Emit (ToSocket sid) "bsl-match-result" (PMatch matched (len_z matched) (len_z vs))]).

Definition bsl_folder_selected (cfg : Config) (disk : string -> option Z) (w : World)
    (sid : string) (clientIdField clientNameField : option string) (fs : list ClientFile)
  : World * list Out :=
  run cfg w sid false (folder_selected_body cfg disk w sid clientIdField clientNameField fs).

(** ** [bsl-set-drift] *)

(** Connections of the target scope with their fingerprints:
    [room.clients] in server mode, [connectedClients] otherwise. *)
Definition scope_members (w : World) (sc : Scope) : list (string * string) :=
  match sc_code sc with
  | Some rc =>
      match getRoom rc w with
      | Some r => map (fun '(s, c) => (s, fingerprint c)) (clients r)
      | None => []
      end
  | None => connectedClients w
  end.

Definition set_drift_body (w : World) (clientFingerprint : string)
    (playlistIndex driftSeconds : Z) (sc : Scope) : Scope * list Out :=
  if String.eqb clientFingerprint "" then (sc, []) else
  if playlistIndex <? 0 then (sc, []) else
  if negb ((-60 <=? driftSeconds) && (driftSeconds <=? 60)) then (sc, []) else  (* validateDriftSeconds *)
  let clampedDrift := Z.max (-60) (Z.min 60 driftSeconds) in
  let clientDrifts := match JsMap.get clientFingerprint (sc_drift sc) with
                      | Some d => d | None => [] end in
  let clientDrifts' := ZMap.set playlistIndex clampedDrift clientDrifts in
  let sc' := with_drift sc (JsMap.set clientFingerprint clientDrifts' (sc_drift sc)) in
  (sc',
   map (fun '(s, _) => Emit (ToSocket s) "bsl-drift-update" (PDrift clientDrifts'))
       (filter (fun '(_, f) => String.eqb f clientFingerprint) (scope_members w sc))
   ++ status_to_admin sc').

Definition bsl_set_drift (cfg : Config) (w : World) (sid clientFingerprint : string)
    (playlistIndex driftSeconds : Z) : World * list Out :=
  run cfg w sid true (set_drift_body w clientFingerprint playlistIndex driftSeconds).

(** ** [delete-room] (server mode)

    [room.isAdmin(fingerprint)] compares with the in-memory admin
    fingerprint; its fallback to the on-disk copy only matters when the two
    differ, which the worlds below never have. *)

Definition set_socketRoomMap (w : World) (m : list (string * string)) : World :=
  mkWorld (rooms w) m (PLAYLIST w) (gVideoState w) (gClientBslStatus w)
    (gAdminSocketId w) (verifiedAdminSockets w) (connectedClients w)
    (gClientDriftValues w) (registeredAdminFingerprint w) (memoryAdminFingerprint w)
    (persistentBslMatches w) (sockets w).

(** [socket.leave(ch)] *)
Definition leave (s ch : string) (ss : list (string * list string)) : list (string * list string) :=
  map (fun '(s', chs) =>
         if String.eqb s' s then (s', filter (fun c => negb (String.eqb c ch)) chs) else (s', chs))
      ss.

(** [deleteRoom(code)]: [rooms.get(code)] / [rooms.delete(code)], no case folding. *)
Definition deleteRoom (c : string) (w : World) : World * bool :=
  match JsMap.get c (rooms w) with
  | Some _ => (set_rooms w (JsMap.delete c (rooms w)), true)
  | None => (w, false)
  end.

Definition delete_room (w : World) (sid roomCode fp : string) : World * list Out :=
  match getRoom roomCode w with
  | None => (w, [Emit (ToSocket sid) "callback" (PResult false)])
  | Some r =>
      if negb (String.eqb (adminFingerprint r) fp)
      then (w, [Emit (ToSocket sid) "callback" (PResult false)])
      else
        let w1 := fold_left
                    (fun acc '(s, _) =>
                       set_socketRoomMap (set_sockets acc (leave s roomCode (sockets acc)))
                         (JsMap.delete s (socketRoomMap acc)))
                    (clients r) w in
        let w2 := fst (deleteRoom roomCode w1) in
        (w2, [Emit (ToChannel roomCode) "room-deleted" (PRoomDeleted roomCode);
              Emit (ToSocket sid) "callback" (PResult true);
              Emit ToAll "rooms-updated" PStatus])
  end.

(** ** String primitives used by the configuration loader and the chat *)

(** [String.prototype.trim] whitespace, restricted to 8-bit characters:
    \t \n \v \f \r, space and no-break space. *)
Definition is_js_space (c : ascii) : bool :=
  is_space_char c || (nat_of_ascii c =? 160)%nat.

Fixpoint trim_start (s : string) : string :=
  match s with
  | EmptyString => EmptyString
  | String c r => if is_js_space c then trim_start r else s
  end.

Definition trim_end (s : string) : string :=
  string_of_list_ascii (rev (list_ascii_of_string (trim_start
    (string_of_list_ascii (rev (list_ascii_of_string s)))))).

(** [s.trim()] *)
Definition trim (s : string) : string := trim_end (trim_start s).

(** [s.substring(0, n)] *)
Definition substring_to (s : string) (n : nat) : string := String.substring 0 n s.

(** [text.replace(/c/g, r)] for a one-character pattern. *)
Fixpoint replace_char (c : ascii) (r : string) (s : string) : string :=
  match s with
  | EmptyString => EmptyString
  | String d t => if Ascii.eqb c d then (r ++ replace_char c r t)%string
                  else String d (replace_char c r t)
  end.

Definition dquote : ascii := ascii_of_nat 34.
Definition squote : ascii := ascii_of_nat 39.

(** [escapeHTML(text)] for a string [text] (its [typeof text !== 'string']
    branch returns [''] and is not reached by the callers below). *)
Definition escapeHTML (text : string) : string :=
  replace_char squote "&#39;"
    (replace_char dquote "&quot;"
      (replace_char ">" "&gt;"
        (replace_char "<" "&lt;"
          (replace_char "&" "&amp;" text)))).

(** ** [parseInt] and [String(number)] *)

Definition digit_value (c : ascii) : option Z :=
  let n := Z.of_nat (nat_of_ascii c) in
  if (48 <=? n) && (n <=? 57) then Some (n - 48)
  else if (97 <=? n) && (n <=? 122) then Some (n - 87)
  else if (65 <=? n) && (n <=? 90) then Some (n - 55)
  else None.

(** The longest prefix of digits of the radix; [None] (NaN) when empty. *)
Fixpoint digits_prefix (radix : Z) (s : string) (acc : Z) (seen : bool) : option Z :=
  match s with
  | String c r =>
      match digit_value c with
      | Some d => if d <? radix then digits_prefix radix r (acc * radix + d) true
                  else if seen then Some acc else None
      | None => if seen then Some acc else None
      end
  | EmptyString => if seen then Some acc else None
  end.

(** [parseInt(s)] with no radix: leading whitespace, an optional sign, an
    optional [0x]/[0X] prefix (radix 16), then digits.  [None] is [NaN]. *)
Definition parseInt (s : string) : option Z :=
  let s1 := trim_start s in
  let '(sign, s2) := match s1 with
                     | String c r => if Ascii.eqb c "-" then (-1, r)
                                     else if Ascii.eqb c "+" then (1, r) else (1, s1)
                     | EmptyString => (1, s1)
                     end in
  let '(radix, s3) := match s2 with
                      | String "0" (String x r) =>
                          if Ascii.eqb x "x" || Ascii.eqb x "X" then (16, r) else (10, s2)
                      | _ => (10, s2)
                      end in
  match digits_prefix radix s3 0 false with
  | Some n => Some (sign * n)
  | None => None
  end.

Definition digit_char (d : Z) : ascii := ascii_of_nat (Z.to_nat (48 + d)).

(** Decimal digits of a non-negative integer ([fuel] bounds the recursion). *)
Fixpoint dec_string (fuel : nat) (n : Z) : string :=
  match fuel with
  | O => EmptyString
  | S f => if n <? 10 then String (digit_char n) EmptyString
           else (dec_string f (n / 10) ++ String (digit_char (n mod 10)) EmptyString)%string
  end.

(** [String(n)] for an integer-valued number. *)
Definition String_of_Z (n : Z) : string :=
  if n <? 0 then String "-" (dec_string (S (Z.to_nat (- n))) (- n))
  else dec_string (S (Z.to_nat n)) n.

(** [a || d] on a number that may be [NaN] ([None]) or [0] *)
Definition or_num (a : option Z) (d : Z) : Z :=
  match a with Some n => if n =? 0 then d else n | None => d end.

(** ** Configuration ([getConfig], [validators], derived constants) *)

(** The values [getConfig] can return: the raw string, or the number or
    boolean a validator computed. *)
Inductive JsVal := JStr (s : string) | JNum (n : Z) | JBool (b : bool).

Record ValidatorResult := mkResult { valid : bool; rvalue : option JsVal }.

(** [getConfig(envKey, fileKey, fallback, validator)] with [envValue =
    process.env[envKey]] and [fileValue = fileConfig[fileKey]]. *)
Definition getConfig (envValue fileValue : option string) (fallback : string)
    (validator : option (string -> ValidatorResult)) : JsVal :=
  let value := match envValue with
               | Some e => e
               | None => match fileValue with Some f => f | None => fallback end
               end in
  match validator with
  | Some v =>
      let result := v value in
      if negb (valid result) then JStr fallback
      else match rvalue result with Some x => x | None => JStr value end
  | None => JStr value
  end.

(** [validators.range(min, max)]; [validators.port] is [range(1024, 49151)]
    written out. *)
Definition range (min max : Z) (v : string) : ValidatorResult :=
  match parseInt v with
  | None => mkResult false None
  | Some num => if (num <? min) || (max <? num) then mkResult false None
                else mkResult true (Some (JNum num))
  end.

Definition validator_port (v : string) : ValidatorResult :=
  match parseInt v with
  | None => mkResult false None
  | Some num => if (num <? 1024) || (49151 <? num) then mkResult false None
                else mkResult true (Some (JNum num))
  end.

(** [String(x)] *)
Definition js_String (x : JsVal) : string :=
  match x with
  | JStr s => s
  | JNum n => String_of_Z n
  | JBool b => if b then "true" else "false"
  end.

(** [config.port], [config.skip_seconds], ... and the constants derived
    from them, for given [SYNC_*] environment and [config.env] values. *)
Definition PORT (env file : option string) : Z :=
  or_num (parseInt (js_String (getConfig env file "3000" (Some validator_port)))) 3000.
Definition SKIP_SECONDS (env file : option string) : Z :=
  or_num (parseInt (js_String (getConfig env file "5" (Some (range 5 60))))) 5.
Definition VOLUME_STEP (env file : option string) : Z :=
  or_num (parseInt (js_String (getConfig env file "5" (Some (range 1 20))))) 5.
Definition BSL_ADVANCED_MATCH_THRESHOLD_of (env file : option string) : Z :=
  Z.min 4 (Z.max 1 (or_num (parseInt (js_String (getConfig env file "1" (Some (range 1 4))))) 1)).
Definition MAX_VOLUME (env file : option string) : Z :=
  Z.min 1000 (Z.max 100
    (or_num (parseInt (js_String (getConfig env file "100" (Some (range 100 1000))))) 100)).

(** ** [chat-message] *)

Inductive ChatOut :=
| ChatEmit (t : Target) (sender message : string) (isSystem : bool)
| NameUpdated (sid newName : string).   (* socket.emit('name-updated', { newName }) *)

(** [clientDisplayNames] is a fingerprint-keyed map; [dataMessage] and
    [dataSender] are the (string) fields [message] and [sender] of the
    payload, [None] when missing.  Returns the new [clientDisplayNames]. *)
Definition chat_message (cfg : Config) (CHAT_ENABLED : bool) (w : World)
    (names : list (string * string)) (sid : string)
    (dataMessage dataSender : option string) : list (string * string) * list ChatOut :=
  if negb CHAT_ENABLED then (names, []) else
  let target := if SERVER_MODE cfg then
                  match JsMap.get sid (socketRoomMap w) with
                  | Some rc => match getRoom rc w with
                               | Some _ => Some (ToChannel rc)
                               | None => None
                               end
                  | None => None
                  end
                else Some ToAll in
  match target with
  | None => (names, [])
  | Some t =>
      let message := or_default (option_map trim dataMessage) "" in
      if startsWith (toLowerCase message) "/rename " then
        let newName := substring_to (trim (substring_from message 8)) 32 in
        if String.eqb newName "" then (names, []) else
        match JsMap.get sid (connectedClients w) with
        | Some fp =>
            if String.eqb fp "" then (names, []) else
            let oldName := match JsMap.get fp names with
                           | Some n => if String.eqb n "" then or_default dataSender "Guest" else n
                           | None => or_default dataSender "Guest"
                           end in
            (JsMap.set fp newName names,
             [NameUpdated sid newName;
              ChatEmit t "System"
                (escapeHTML oldName ++ " is now known as " ++ escapeHTML newName) true])
        | None => (names, [])
        end
      else
        (names, [ChatEmit t (escapeHTML (or_default dataSender "Guest"))
                   (escapeHTML (substring_to message 500)) false])
  end.

(** ** [track-change] (integer [videoIndex] and [trackIndex])

    The [track-change] broadcast echoes [data]; its payload is not modelled. *)

Definition set_selectedAudioTrack (v : Video) (k : Z) : Video :=
  mkVideo (filename v) (isExternal v) (Some k) (selectedSubtitleTrack v) (usesHEVC v).
Definition set_selectedSubtitleTrack (v : Video) (k : Z) : Video :=
  mkVideo (filename v) (isExternal v) (selectedAudioTrack v) (Some k) (usesHEVC v).

(** [validateTrackIndex] on a number *)
Definition validateTrackIndex (k : Z) : bool := -1 <=? k.

Definition track_change_body (videoIndex : Z) (ty : string) (trackIndex now : Z) (sc : Scope)
  : Scope * list Out :=
  if videoIndex <? 0 then (sc, []) else
  if negb (String.eqb ty "audio" || String.eqb ty "subtitle") then (sc, []) else
  if negb (validateTrackIndex trackIndex) then (sc, []) else
  let p := sc_playlist sc in
  if negb (videoIndex <? len_z (videos p)) then (sc, []) else
  match nth_z videoIndex (videos p) with
  | None => (sc, [])
  | Some v =>
      let v' := if String.eqb ty "audio" then set_selectedAudioTrack v trackIndex
                else set_selectedSubtitleTrack v trackIndex in
      let p' := set_videos p (replace_nth (Z.to_nat videoIndex) v' (videos p)) in
      let st := sc_state sc in
      if videoIndex =? currentIndex p then
        let st1 := if String.eqb ty "audio" then set_tracks st trackIndex (subtitleTrack st)
                   else set_tracks st (audioTrack st) trackIndex in
        let st2 := set_lastUpdate st1 now in
        (with_pl_st sc p' st2,
         [Emit (fanout sc) "sync" (PSync st2); Emit (fanout sc) "track-change" PStatus])
      else
        (with_pl_st sc p' st, [Emit (fanout sc) "track-change" PStatus])
  end.

Definition track_change (cfg : Config) (w : World) (sid : string) (videoIndex : Z)
    (ty : string) (trackIndex now : Z) : World * list Out :=
  run cfg w sid true (track_change_body videoIndex ty trackIndex now).

(** The entry as updated by [track-change] for a valid [data.type]. *)
Definition track_set (ty : string) (v : Video) (k : Z) : Video :=
  if String.eqb ty "audio" then set_selectedAudioTrack v k else set_selectedSubtitleTrack v k.

(** ** [control]

    [data] is either an action ([data.action] set) or a direct sync from a
    client ([data.action] missing, with [isPlaying] and a numeric
    [currentTime]).  Times and track indices are integers here;
    [data.seconds] is [None] when missing.  [OtherAction] is any other
    non-empty [data.action]. *)

Record ControlConfig := mkControlConfig {
  CLIENT_CONTROLS_DISABLED : bool;
  CLIENT_SYNC_DISABLED : bool
}.

Inductive ControlAction :=
| PlayPause (state : bool)
| Skip (direction : string) (seconds : option Z)
| Seek (time : Z)
| SelectTrack (ty : string) (trackIndex : Z)
| OtherAction.

Inductive ControlData :=
| CAction (action : ControlAction) (currentTime : option Z)
| CDirectSync (isPlaying : bool) (currentTime : Z).

(** The three validations at the top of the handler. *)
Definition control_valid (d : ControlData) : bool :=
  match d with
  | CAction a ct =>
      match ct with Some t => 0 <=? t | None => true end &&
      match a with
      | Seek t => 0 <=? t
      | SelectTrack _ k => validateTrackIndex k
      | _ => true
      end
  | CDirectSync _ t => 0 <=? t
  end.

Definition is_direct_sync (d : ControlData) : bool :=
  match d with CDirectSync _ _ => true | CAction _ _ => false end.

(** The new video state; [None] when the handler changes and emits nothing. *)
Definition control_apply (SKIP_SECONDS : Z) (d : ControlData) (st : VideoState) (now : Z)
  : option VideoState :=
  match d with
  | CAction (PlayPause b) _ => Some (set_lastUpdate (set_isPlaying st b) now)
  | CAction (Skip dir secs) _ =>
      let direction := if String.eqb dir "forward" then 1 else -1 in
      Some (set_lastUpdate (set_currentTime st (currentTime st + direction * or_num secs SKIP_SECONDS)) now)
  | CAction (Seek t) _ => Some (set_lastUpdate (set_currentTime st t) now)
  | CAction (SelectTrack ty k) _ =>
      let st1 := if String.eqb ty "audio" then set_tracks st k (subtitleTrack st)
                 else if String.eqb ty "subtitle" then set_tracks st (audioTrack st) k
                 else st in
      Some (set_lastUpdate st1 now)
  | CAction OtherAction _ => None
  | CDirectSync b t => Some (mkVideoState b t now (audioTrack st) (subtitleTrack st))
  end.

Definition control_body (SKIP_SECONDS : Z) (d : ControlData) (now : Z) (sc : Scope)
  : Scope * list Out :=
  match control_apply SKIP_SECONDS d (sc_state sc) now with
  | Some st' => (with_pl_st sc (sc_playlist sc) st', [Emit (fanout sc) "sync" (PSync st')])
  | None => (sc, [])
  end.

Definition control (cfg : Config) (cc : ControlConfig) (SKIP_SECONDS : Z) (w : World)
    (sid : string) (d : ControlData) (now : Z) : World * list Out :=
  if negb (control_valid d) then (w, []) else
  if SERVER_MODE cfg then
    run cfg w sid false (fun sc =>
      if CLIENT_CONTROLS_DISABLED cc && negb (is_sid (sc_admin sc) sid) then (sc, [])
      else control_body SKIP_SECONDS d now sc)
  else if CLIENT_CONTROLS_DISABLED cc && negb (existsb (String.eqb sid) (verifiedAdminSockets w))
  then (w, [Emit (ToSocket sid) "control-rejected" PStatus])
  else if CLIENT_SYNC_DISABLED cc && is_direct_sync d then (w, [])
  else run cfg w sid false (control_body SKIP_SECONDS d now).

(** ** Room membership (server mode): [create-room], [join-room],
    [leave-room], [disconnect] *)

Definition set_room (w : World) (k : string) (r : Room) : World :=
  set_rooms w (JsMap.set k r (rooms w)).

Definition set_adminSocketId (r : Room) (a : option string) : Room :=
  mkRoom (code r) (roomName r) (adminFingerprint r) a (clients r) (playlist r)
    (videoState r) (clientBslStatus r) (clientDriftValues r).
Definition set_adminFingerprint (r : Room) (fp : string) : Room :=
  mkRoom (code r) (roomName r) fp (adminSocketId r) (clients r) (playlist r)
    (videoState r) (clientBslStatus r) (clientDriftValues r).

(** [s.slice(-4)] *)
Definition slice_last4 (s : string) : string :=
  String.substring (String.length s - 4) 4 s.

(** [room.addClient(socketId, fingerprint, name)] *)
Definition addClient (r : Room) (sid fp : string) (nm : option string) : Room :=
  mkRoom (code r) (roomName r) (adminFingerprint r) (adminSocketId r)
    (JsMap.set sid (mkClient fp (or_default nm ("Guest-" ++ slice_last4 sid))) (clients r))
    (playlist r) (videoState r) (clientBslStatus r) (clientDriftValues r).

(** [room.removeClient(socketId)] *)
Definition removeClient (r : Room) (sid : string) : Room :=
  mkRoom (code r) (roomName r) (adminFingerprint r) (adminSocketId r)
    (JsMap.delete sid (clients r)) (playlist r) (videoState r)
    (JsMap.delete sid (clientBslStatus r)) (clientDriftValues r).

(** [room.isAdmin(fingerprint)]; [admins] is the content of the room
    logger's admin file ([roomLogger.getAdminFingerprint(code)] reads
    [admins[code]?.fingerprint || null]).  Returns the room with the
    restored in-memory fingerprint. *)
Definition room_isAdmin (admins : list (string * string)) (r : Room) (fp : string) : bool * Room :=
  if String.eqb (adminFingerprint r) fp then (true, r)
  else match JsMap.get (code r) admins with
       | Some p => if negb (String.eqb p "") && String.eqb p fp
                   then (true, set_adminFingerprint r p) else (false, r)
       | None => (false, r)
       end.

(** [socket.join(ch)] *)
Definition join_channel (s ch : string) (ss : list (string * list string))
  : list (string * list string) :=
  map (fun '(s', chs) => if String.eqb s' s then (s', set_add ch chs) else (s', chs)) ss.

(** [socket.join(c)] and [socketRoomMap.set(socket.id, c)] *)
Definition enter_room (w : World) (sid c : string) : World :=
  let w1 := set_sockets w (join_channel sid c (sockets w)) in
  set_socketRoomMap w1 (JsMap.set sid c (socketRoomMap w1)).

(** The alphabet of [generateRoomCode()]. *)
Definition room_code_chars : string := "ABCDEFGHJKLMNPQRSTUVWXYZ23456789".

(** [create-room]; [newCode] is the value returned by [generateRoomCode()]
    (six characters of [ABCDEFGHJKLMNPQRSTUVWXYZ23456789] not yet used as a
    key of [rooms]). *)
Definition create_room (w : World) (sid newCode : string) (nm : option string) (fp : string)
    (now : Z) : World * list Out :=
  let r0 := new_room newCode (or_default nm "Watch Party") fp now in
  let r1 := addClient (set_adminSocketId r0 (Some sid)) sid fp (Some "Admin") in
  let w1 := set_room w newCode r1 in
  (enter_room w1 sid newCode,
   [Emit (ToSocket sid) "callback" (PResult true); Emit ToAll "rooms-updated" PStatus]).

Definition join_room (admins : list (string * string)) (w : World) (sid roomCode : string)
    (nm : option string) (fp : string) : World * list Out :=
  match getRoom roomCode w with
  | None => (w, [Emit (ToSocket sid) "callback" (PResult false)])
  | Some r0 =>
      let '(isAdm, r1) := room_isAdmin admins r0 fp in
      let r2 := if isAdm then set_adminSocketId r1 (Some sid) else r1 in
      let r3 := addClient r2 sid fp nm in
      let w1 := set_room w (toUpperCase roomCode) r3 in
      (enter_room w1 sid (code r3),
       [Emit (ToSocket sid) "config" PConfig;
        Emit (ToSocket sid) "playlist-update" (PPlaylist (playlist r3));
        Emit (ToSocket sid) "sync" (PSync (videoState r3));
        Emit (ToSocket sid) "callback" (PResult true);
        Emit (ToChannel (code r3)) "viewer-count" PCount;
        Emit ToAll "rooms-updated" PStatus])
  end.

Definition leave_room (w : World) (sid : string) : World * list Out :=
  match JsMap.get sid (socketRoomMap w) with
  | None => (w, [])
  | Some rc =>
      let '(w1, outs) :=
        match getRoom rc w with
        | Some r =>
            let w0 := set_room w (toUpperCase rc) (removeClient r sid) in
            (set_sockets w0 (leave sid rc (sockets w0)),
             [Emit (ToChannel rc) "viewer-count" PCount; Emit ToAll "rooms-updated" PStatus])
        | None => (w, [])
        end in
      (set_socketRoomMap w1 (JsMap.delete sid (socketRoomMap w1)), outs)
  end.

(** The socket leaves socket.io before its [disconnect] listeners run. *)
Definition drop_socket (w : World) (sid : string) : World :=
  set_sockets w (filter (fun '(s, _) => negb (String.eqb s sid)) (sockets w)).

(** The server-mode [disconnect] listener (registered first). *)
Definition server_disconnect_room (w : World) (sid : string) : World * list Out :=
  match JsMap.get sid (socketRoomMap w) with
  | None => (w, [])
  | Some rc =>
      let '(w1, outs) :=
        match getRoom rc w with
        | Some r =>
            (set_room w (toUpperCase rc) (removeClient r sid),
             [Emit (ToChannel rc) "viewer-count" PCount; Emit ToAll "rooms-updated" PStatus])
        | None => (w, [])
        end in
      (set_socketRoomMap w1 (JsMap.delete sid (socketRoomMap w1)), outs)
  end.

Definition set_gClientBslStatus (w : World) (b : list (string * BslStatus)) : World :=
  mkWorld (rooms w) (socketRoomMap w) (PLAYLIST w) (gVideoState w) b
    (gAdminSocketId w) (verifiedAdminSockets w) (connectedClients w)
    (gClientDriftValues w) (registeredAdminFingerprint w) (memoryAdminFingerprint w)
    (persistentBslMatches w) (sockets w).

Definition set_connectedClients (w : World) (cc : list (string * string)) : World :=
  mkWorld (rooms w) (socketRoomMap w) (PLAYLIST w) (gVideoState w) (gClientBslStatus w)
    (gAdminSocketId w) (verifiedAdminSockets w) cc
    (gClientDriftValues w) (registeredAdminFingerprint w) (memoryAdminFingerprint w)
    (persistentBslMatches w) (sockets w).

(** The shared [disconnect] listener (registered second). *)
Definition shared_disconnect (cfg : Config) (w : World) (sid : string) : World * list Out :=
  if SERVER_MODE cfg then
    match JsMap.get sid (socketRoomMap w) with
    | None => (w, [])
    | Some rc =>
        let '(w1, outs) :=
          match getRoom rc w with
          | Some r =>
              let r' := mkRoom (code r) (roomName r) (adminFingerprint r) (adminSocketId r)
                          (clients r) (playlist r) (videoState r)
                          (JsMap.delete sid (clientBslStatus r)) (clientDriftValues r) in
              (set_room w (toUpperCase rc) r',
               status_to_admin (room_scope rc r') ++ [Emit (ToChannel rc) "client-count" PCount])
          | None => (w, [])
          end in
        (set_socketRoomMap w1 (JsMap.delete sid (socketRoomMap w1)), outs)
    end
  else
    let w1 := set_gClientBslStatus w (JsMap.delete sid (gClientBslStatus w)) in
    let w2 := set_admin_fields w1 (filter (fun s => negb (String.eqb s sid)) (verifiedAdminSockets w1))
                (if is_sid (gAdminSocketId w1) sid then None else gAdminSocketId w1)
                (registeredAdminFingerprint w1) (memoryAdminFingerprint w1) in
    let w3 := set_connectedClients w2 (JsMap.delete sid (connectedClients w2)) in
    (w3, status_to_admin (legacy_scope w3) ++ [Emit ToAll "client-count" PCount]).

(** A connection closes: the socket leaves socket.io, then the server-mode
    listener (server mode only) and the shared listener run in order. *)
Definition disconnect (cfg : Config) (w : World) (sid : string) : World * list Out :=
  let w0 := drop_socket w sid in
  let '(w1, o1) := if SERVER_MODE cfg then server_disconnect_room w0 sid else (w0, []) in
  let '(w2, o2) := shared_disconnect cfg w1 sid in
  (w2, o1 ++ o2).

(** ** [client-register], [get-client-list] *)

(** [data?.fingerprint || 'unknown'] *)
Definition client_register (w : World) (sid : string) (fp : option string) : World :=
  set_connectedClients w (JsMap.set sid (or_default fp "unknown") (connectedClients w)).

(** The entries [(socketId, fingerprint, displayName)] sent in
    [client-list]; [None] when the handler returns early. *)
Definition get_client_list (cfg : Config) (w : World) (names : list (string * string))
    (sid : string) : option (list (string * string * string)) :=
  let display fp := match JsMap.get fp names with Some n => n | None => "" end in
  if SERVER_MODE cfg then
    match JsMap.get sid (socketRoomMap w) with
    | None => None
    | Some rc =>
        match getRoom rc w with
        | None => None
        | Some r =>
            Some (map (fun '(s, c) => (s, fingerprint c, display (fingerprint c)))
                      (filter (fun '(s, _) => negb (is_sid (adminSocketId r) s)) (clients r)))
        end
    end
  else
    Some (map (fun '(s, fp) => (s, fp, display fp))
              (filter (fun '(s, _) => negb (existsb (String.eqb s) (verifiedAdminSockets w)))
                      (connectedClients w))).

(** ** [bsl-manual-match] and [bsl-check-request] *)

Definition set_persistentBslMatches (w : World) (m : list (string * list (string * string)))
  : World :=
  mkWorld (rooms w) (socketRoomMap w) (PLAYLIST w) (gVideoState w) (gClientBslStatus w)
    (gAdminSocketId w) (verifiedAdminSockets w) (connectedClients w)
    (gClientDriftValues w) (registeredAdminFingerprint w) (memoryAdminFingerprint w)
    m (sockets w).

(** [setBslMatch(clientId, clientFileName, playlistFileName)] *)
Definition setBslMatch (cid cfn pfn : string) (m : list (string * list (string * string)))
  : list (string * list (string * string)) :=
  let cm := match JsMap.get cid m with Some x => x | None => [] end in
  JsMap.set cid (JsMap.set cfn pfn cm) m.

Definition bsl_manual_match (cfg : Config) (w : World) (sid clientSocketId clientFileName : string)
    (playlistIndex : Z) : World * list Out :=
  match resolve cfg w sid true with
  | None => (w, [])
  | Some sc =>
      match JsMap.get clientSocketId (sc_bsl sc) with
      | None => (w, [])
      | Some cs =>
          let mv := ZMap.set playlistIndex clientFileName (matchedVideos cs) in
          let cs' := mkBslStatus (clientId cs) (clientName cs) (folderSelected cs) (files cs) mv in
          let sc' := with_bsl sc (JsMap.set clientSocketId cs' (sc_bsl sc)) in
          let w1 := commit w sc' in
          let w2 := match nth_z playlistIndex (videos (sc_playlist sc)) with
                    | Some v =>
                        if String.eqb (clientId cs) "" then w1
                        else set_persistentBslMatches w1
                               (setBslMatch (clientId cs) (toLowerCase clientFileName)
                                  (toLowerCase (filename v)) (persistentBslMatches w1))
                    | None => w1
                    end in
          (w2, Emit (ToChannel clientSocketId) "bsl-match-result"
                 (PMatch mv (len_z mv) (len_z (videos (sc_playlist sc))))
               :: status_to_admin sc')
      end
  end.

(** The sockets that receive [bsl-check-request] (its payload, the
    entries' file names, is not modelled), then [bsl-check-started] to the
    admin. *)
Definition bsl_check_request (cfg : Config) (w : World) (sid : string) : World * list Out :=
  match resolve cfg w sid true with
  | None => (w, [])
  | Some sc =>
      let socketsToPoll := match sc_code sc with
                           | Some rc => match getRoom rc w with
                                        | Some r => map fst (clients r)
                                        | None => []
                                        end
                           | None => map fst (sockets w)
                           end in
      let prompted := filter (fun s =>
                        negb (is_sid (sc_admin sc) s) &&
                        negb (match JsMap.get s (sc_bsl sc) with
                              | Some st => folderSelected st | None => false end) &&
                        JsMap.has s (sockets w)) socketsToPoll in
      (w, map (fun s => Emit (ToSocket s) "bsl-check-request" PStatus) prompted ++
          [Emit (ToSocket sid) "bsl-check-started" PCount])
  end.

(** ** [videoBslStatus] of [sendBslStatusToAdmin]

    The per-entry part of the [bsl-status-update] payload.  A client has a
    match for [index] when [status.matchedVideos[index]] is truthy, i.e. a
    non-empty file name. *)

Definition has_match (index : Z) (st : BslStatus) : bool :=
  match ZMap.get index (matchedVideos st) with
  | Some f => negb (String.eqb f "")
  | None => false
  end.

Record VideoBslStatus := mkVideoBslStatus {
  bslActive : bool;
  clientsWithMatch : Z;
  clientsWithoutMatch : Z;
  totalChecked : Z
}.

Definition video_bsl_status (BSL_S2_MODE : string) (targetClientBslStatus : list (string * BslStatus))
    (index : Z) : VideoBslStatus :=
  let clientsWithMatch := map fst (filter (fun '(_, st) => has_match index st) targetClientBslStatus) in
  let clientsWithoutMatch :=
    map fst (filter (fun '(_, st) => negb (has_match index st) && folderSelected st)
               targetClientBslStatus) in
  let totalClients := len_z targetClientBslStatus in
  let bslActive := if String.eqb BSL_S2_MODE "all"
                   then (0 <? totalClients) && (len_z clientsWithMatch =? totalClients)
                   else 0 <? len_z clientsWithMatch in
  mkVideoBslStatus bslActive (len_z clientsWithMatch) (len_z clientsWithoutMatch)
    (len_z clientsWithMatch + len_z clientsWithoutMatch).

(** [videoBslStatus]: one entry per playlist index. *)
Definition videoBslStatus (BSL_S2_MODE : string) (sc : Scope) : list (Z * VideoBslStatus) :=
  map (fun i => (i, video_bsl_status BSL_S2_MODE (sc_bsl sc) i))
      (map Z.of_nat (seq 0 (length (videos (sc_playlist sc))))).

(** ** Concrete worlds used by the witnesses and counterexamples *)

Definition empty_playlist : Playlist := mkPlaylist [] (-1) (-1) 0 false.
Definition initial_state (now : Z) : VideoState := mkVideoState true 0 now 0 (-1).

(** The module-level state right after start-up (no memory file). *)
Definition boot_world : World :=
  mkWorld [] [] empty_playlist (initial_state 0) [] None [] [] [] None None [] [].

Definition entry (f : string) : Video := mkVideo f false None None false.

Definition cfg_single : Config := mkConfig false false "sync" false true 1.
Definition cfg_single_reset : Config := mkConfig false false "reset" false true 1.
Definition cfg_single_locked : Config := mkConfig false true "sync" false true 1.
Definition cfg_server : Config := mkConfig true false "sync" false true 1.

(** Single-room world: two entries, the first one playing, admin [adm]
    and viewer [fpV] connected. *)
Definition two_entry_world : World :=
  mkWorld [] [] (mkPlaylist [entry "a.mp4"; entry "b.mkv"] 0 (-1) 0 true)
    (mkVideoState true 30 100 0 (-1)) [] (Some "adm") [] [("adm", "fpA"); ("v1", "fpV")]
    [] None None [] [("adm", ["adm"]); ("v1", ["v1"])].

(** Server-mode world: room [ABC234] with admin socket [s1] (fingerprint
    [fpA]) and viewer [s2]. *)
Definition room_ABC234 : Room :=
  mkRoom "ABC234" "Watch Party" "fpA" (Some "s1")
    [("s1", mkClient "fpA" "Admin"); ("s2", mkClient "fpV" "Guest")]
    empty_playlist (initial_state 0) [] [].

Definition server_world : World :=
  mkWorld [("ABC234", room_ABC234)] [("s1", "ABC234"); ("s2", "ABC234")]
    empty_playlist (initial_state 0) [] None [] [] [] None None []
    [("s1", ["s1"; "ABC234"]); ("s2", ["s2"; "ABC234"])].

(** Single-room world of [two_entry_world] where viewer [v1] (persistent
    id [cid1]) has a BSL status, and the file [movie_a.mp4] of [cid1] is
    persistently matched to [b.mkv]. *)
Definition bsl_world : World :=
  mkWorld [] [] (mkPlaylist [entry "a.mp4"; entry "b.mkv"] 0 (-1) 0 true)
    (mkVideoState true 30 100 0 (-1)) [("v1", mkBslStatus "cid1" "Viewer" false [] [])]
    (Some "adm") [] [("adm", "fpA"); ("v1", "fpV")] [] None None
    [("cid1", [("movie_a.mp4", "b.mkv")])] [("adm", ["adm"]); ("v1", ["v1"])].

Definition no_disk (_ : string) : option Z := None.

(** * Properties *)

(** ** Map lemmas *)

Lemma JsMap_get_set_same {V} (k : string) (v : V) m : JsMap.get k (JsMap.set k v m) = Some v.
Proof.
  induction m as [|[k' v'] r IH]; simpl.
  - rewrite String.eqb_refl. reflexivity.
  - destruct (String.eqb k k') eqn:E; simpl.
    + rewrite E. reflexivity.
    + rewrite E. exact IH.
Qed.

Lemma JsMap_set_set {V} (k : string) (v : V) m :
  JsMap.set k v (JsMap.set k v m) = JsMap.set k v m.
Proof.
  induction m as [|[k' v'] r IH]; simpl.
  - rewrite String.eqb_refl. reflexivity.
  - destruct (String.eqb k k') eqn:E; simpl; rewrite E; [reflexivity | now rewrite IH].
Qed.

(** ** Committing a scope and resolving it again *)

Definition rebuild (r : Room) (sc : Scope) : Room :=
  mkRoom (code r) (roomName r) (adminFingerprint r) (adminSocketId r)
    (clients r) (sc_playlist sc) (sc_state sc) (sc_bsl sc) (sc_drift sc).

Lemma getRoom_commit w rc r sc :
  sc_code sc = Some rc -> getRoom rc w = Some r ->
  getRoom rc (commit w sc) = Some (rebuild r sc).
Proof.
  intros Hc Hr. unfold commit. rewrite Hc, Hr. unfold getRoom, set_rooms; simpl.
  apply JsMap_get_set_same.
Qed.

Lemma resolve_commit cfg w sid b sc p st bs dr :
  resolve cfg w sid b = Some sc ->
  resolve cfg (commit w (mkScope (sc_code sc) p st bs dr (sc_admin sc))) sid b
  = Some (mkScope (sc_code sc) p st bs dr (sc_admin sc)).
Proof.
  unfold resolve. destruct (SERVER_MODE cfg).
  - destruct (JsMap.get sid (socketRoomMap w)) as [rc|] eqn:Hs; [|discriminate].
    destruct (getRoom rc w) as [r|] eqn:Hr; [|discriminate].
    destruct (b && negb (is_sid (adminSocketId r) sid)) eqn:Hb; [discriminate|].
    intros H; injection H as <-. unfold commit, room_scope; simpl.
    rewrite Hr. simpl. rewrite Hs.
    unfold getRoom at 1; simpl. rewrite JsMap_get_set_same. simpl.
    simpl in Hb. rewrite Hb. reflexivity.
  - intros H; injection H as <-. reflexivity.
Qed.

Lemma commit_commit w sc : commit (commit w sc) sc = commit w sc.
Proof.
  unfold commit at 2 3. destruct (sc_code sc) as [rc|] eqn:Hc.
  - destruct (getRoom rc w) as [r|] eqn:Hr.
    + unfold commit. rewrite Hc.
      assert (Hg : getRoom rc (set_rooms w (JsMap.set (toUpperCase rc) (rebuild r sc) (rooms w)))
                   = Some (rebuild r sc)).
      { unfold getRoom, set_rooms; simpl. apply JsMap_get_set_same. }
      fold (rebuild r sc). rewrite Hg. unfold rebuild at 1; simpl.
      fold (rebuild r sc). unfold set_rooms at 1; simpl. rewrite JsMap_set_set. reflexivity.
    + unfold commit. rewrite Hc, Hr. reflexivity.
  - unfold commit. rewrite Hc. reflexivity.
Qed.

Lemma persistent_commit w sc : persistentBslMatches (commit w sc) = persistentBslMatches w.
Proof.
  unfold commit. destruct (sc_code sc); [destruct (getRoom s w)|]; reflexivity.
Qed.

(** Single-room world whose playlist is one entry [clip.ogg], an extension
    missing from [mimeMap]. *)
Definition clip_world : World :=
  mkWorld [] [] (mkPlaylist [entry "clip.ogg"] 0 (-1) 0 true)
    (initial_state 0) [] (Some "adm") [] [("adm", "fpA"); ("v1", "fpV")]
    [] None None [] [("adm", ["adm"]); ("v1", ["v1"])].

(** Single-room world whose playlist is one entry [movie.mkv]. *)
Definition movie_world : World :=
  mkWorld [] [] (mkPlaylist [entry "movie.mkv"] 0 (-1) 0 true)
    (initial_state 0) [] (Some "adm") [] [("adm", "fpA"); ("v1", "fpV")]
    [] None None [] [("adm", ["adm"]); ("v1", ["v1"])].

Definition cfg_single_t3 : Config := mkConfig false false "sync" false true 3.

(** [fs.statSync] on the server: [movie.mkv] has 900 000 000 bytes. *)
Definition disk_movie (f : string) : option Z :=
  if String.eqb f "movie.mkv" then Some 900000000 else None.

(** ** C1: index validity *)

(** C1 (code_bug). [playlist-next] stores the received index without any
    bound check (and without an admin check): on a two-entry playlist a
    viewer's [playlist-next 5] leaves [currentIndex = 5], outside
    [0, len(videos)), and broadcasts [playlist-position 5]. *)
Theorem playlist_next_stores_unchecked_index :
  let '(w', outs) := route cfg_single two_entry_world "v1" "playlist-next"
                       (fun w => playlist_next cfg_single w "v1" 5 200) in
  currentIndex (PLAYLIST w') = 5 /\ len_z (videos (PLAYLIST w')) = 2 /\
  In (Emit ToAll "playlist-position" (PIndex 5)) outs.
Proof.
  vm_compute. split; [reflexivity | split; [reflexivity | tauto]].
Qed.

(** ** C3: filename safety *)

(** C3 (code_bug). An admin's [set-playlist] with the non-external entry
    [a;b.mkv] passes the gate and makes [getTracksForFile] run [ffprobe] on
    [media/a;b.mkv], although [validateFilename] rejects that name (it holds
    the shell metacharacter [;]). *)
Theorem set_playlist_probes_unvalidated_name :
  In (Probe "a;b.mkv")
     (snd (route cfg_server server_world "s1" "set-playlist"
             (fun w => set_playlist cfg_server w "s1" [entry "a;b.mkv"] 0 0 5)))
  /\ validateFilename "a;b.mkv" = false.
Proof.
  vm_compute. split; [tauto | reflexivity].
Qed.

(** ** C5: [currentIndex = -1] iff empty or not started *)

(** C5 (code_bug). A new room starts with [currentIndex = -1] and no
    videos, but an admin's [set-playlist] with an empty array sets
    [currentIndex = 0] while the playlist stays empty. *)
Theorem set_playlist_empty_sets_index_zero :
  currentIndex (playlist (new_room "ABC234" "Watch Party" "fpA" 0)) = -1 /\
  videos (playlist (new_room "ABC234" "Watch Party" "fpA" 0)) = [] /\
  match getRoom "ABC234"
          (fst (route cfg_server server_world "s1" "set-playlist"
                  (fun w => set_playlist cfg_server w "s1" [] (-1) 0 5))) with
  | Some r => currentIndex (playlist r) = 0 /\ videos (playlist r) = []
  | None => False
  end.
Proof.
  vm_compute. repeat split.
Qed.

(** ** C10: [delete-room] with a lowercase code *)

(** C10 (code_bug). Admin [s1] deletes room [ABC234] sending the code
    [abc234]: [getRoom] finds the room case-insensitively, but
    [io.to('abc234')] reaches no socket (the members joined channel
    [ABC234]), [socket.leave('abc234')] leaves them in [ABC234], and
    [deleteRoom('abc234')] removes nothing: the room stays registered and
    [getRoom] still returns it.  Only the [socketRoomMap] entries go. *)
Theorem delete_room_lowercase_code :
  let '(w', outs) := route cfg_server server_world "s1" "delete-room"
                       (fun w => delete_room w "s1" "abc234" "fpA") in
  getRoom "abc234" w' = Some room_ABC234 /\
  In (Emit (ToChannel "abc234") "room-deleted" (PRoomDeleted "abc234")) outs /\
  recipients server_world (ToChannel "abc234") = [] /\
  recipients w' (ToChannel "ABC234") = ["s1"; "s2"] /\
  socketRoomMap w' = [].
Proof.
  vm_compute. repeat split; tauto.
Qed.

(** ** C6: the advanced matcher *)

(** C6 (code_bug).  The spec's example holds: [Movie.MKV] (900 001 000 B,
    [video/x-matroska]) against [movie.mkv] (900 000 000 B on disk) scores 4
    and matches at threshold 3.  But for an entry whose extension is not in
    [mimeMap] the expected MIME is [''], ['' .split('/')[0]] is [''] and every
    non-empty type "starts with" it: [notes.txt] ([text/plain], no size)
    against [clip.ogg] shares neither name, extension nor MIME family, yet
    scores 1 and is matched at the default threshold 1. *)
Theorem matcher_scores_and_unknown_extension :
  matchScore disk_movie (mkClientFile "Movie.MKV" (Some 900001000) (Some "video/x-matroska"))
    (entry "movie.mkv") = 4 /\
  In (Emit (ToSocket "v1") "bsl-match-result" (PMatch [(0, "Movie.MKV")] 1 1))
     (snd (bsl_folder_selected cfg_single_t3 disk_movie movie_world "v1" (Some "fpV") None
             [mkClientFile "Movie.MKV" (Some 900001000) (Some "video/x-matroska")])) /\
  name_point (mkClientFile "notes.txt" None (Some "text/plain")) (entry "clip.ogg") = 0 /\
  ext_point (mkClientFile "notes.txt" None (Some "text/plain")) (entry "clip.ogg") = 0 /\
  size_point (fun _ => None) (mkClientFile "notes.txt" None (Some "text/plain")) (entry "clip.ogg") = 0 /\
  mime_point (mkClientFile "notes.txt" None (Some "text/plain")) (entry "clip.ogg") = 1 /\
  In (Emit (ToSocket "v1") "bsl-match-result" (PMatch [(0, "notes.txt")] 1 1))
     (snd (bsl_folder_selected cfg_single (fun _ => None) clip_world "v1" (Some "fpV") None
             [mkClientFile "notes.txt" None (Some "text/plain")])).
Proof.
  vm_compute. repeat split; tauto.
Qed.

(** ** C9: [bsl-folder-selected] is idempotent *)

(** C9 (confirmed). Processing the same [bsl-folder-selected] payload a
    second time, right after the first, gives back exactly the world and
    the emissions ([bsl-match-result] reply included) of the first run:
    the stored per-socket BSL entry is rewritten with identical content. *)
Theorem bsl_folder_selected_idempotent cfg disk w sid cidf cnf fs :
  bsl_folder_selected cfg disk (fst (bsl_folder_selected cfg disk w sid cidf cnf fs))
    sid cidf cnf fs
  = bsl_folder_selected cfg disk w sid cidf cnf fs.
Proof.
  unfold bsl_folder_selected, run.
  destruct (resolve cfg w sid false) as [sc|] eqn:Hr; [|simpl; rewrite Hr; reflexivity].
  unfold folder_selected_body at 2 3. simpl fst.
  unfold with_bsl at 1 2.
  rewrite (resolve_commit cfg w sid false sc) by exact Hr.
  unfold folder_selected_body. rewrite persistent_commit. simpl.
  rewrite JsMap_set_set. f_equal.
  apply commit_commit.
Qed.

(** ** C2: [bsl-set-drift] *)

Lemma JsMap_set_get {V} (k : string) (v : V) m : JsMap.get k m = Some v -> JsMap.set k v m = m.
Proof.
  induction m as [|[k' v'] r IH]; simpl; [discriminate|].
  destruct (String.eqb k k') eqn:E.
  - intros H; injection H as ->. reflexivity.
  - intros H. now rewrite IH.
Qed.

(** Committing the scope just resolved, unchanged, leaves the world as it was. *)
Lemma commit_resolved cfg w sid b sc : resolve cfg w sid b = Some sc -> commit w sc = w.
Proof.
  unfold resolve. destruct (SERVER_MODE cfg).
  - destruct (JsMap.get sid (socketRoomMap w)) as [rc|] eqn:Hs; [|discriminate].
    destruct (getRoom rc w) as [r|] eqn:Hr; [|discriminate].
    destruct (b && negb (is_sid (adminSocketId r) sid)); [discriminate|].
    intros H; injection H as <-. unfold commit, room_scope; simpl. rewrite Hr.
    assert (Hrb : mkRoom (code r) (roomName r) (adminFingerprint r) (adminSocketId r) (clients r)
                    (playlist r) (videoState r) (clientBslStatus r) (clientDriftValues r) = r)
      by (destruct r; reflexivity).
    rewrite Hrb. unfold getRoom in Hr. rewrite (JsMap_set_get _ _ _ Hr).
    destruct w; reflexivity.
  - intros H; injection H as <-. destruct w; reflexivity.
Qed.


Lemma ZMap_get_set_same {V} (k : Z) (v : V) m : ZMap.get k (ZMap.set k v m) = Some v.
Proof.
  induction m as [|[k' v'] r IH]; simpl.
  - rewrite Z.eqb_refl. reflexivity.
  - destruct (Z.eqb k k') eqn:E; simpl; rewrite E; [reflexivity | exact IH].
Qed.

(** C2 (corrected), counterexample. The admin's
    [bsl-set-drift {clientFingerprint: "fpV", playlistIndex: 0, driftSeconds: 75}]
    is not clamped to 60: [validateDriftSeconds] rejects it, so nothing is
    stored and [fpV] receives no [bsl-drift-update]. *)
Lemma bsl_set_drift_75_not_clamped :
  ~ (exists w' outs,
       route cfg_single two_entry_world "adm" "bsl-set-drift"
         (fun w => bsl_set_drift cfg_single w "adm" "fpV" 0 75) = (w', outs) /\
       JsMap.get "fpV" (gClientDriftValues w') = Some [(0, 60)] /\
       In (Emit (ToSocket "v1") "bsl-drift-update" (PDrift [(0, 60)])) outs).
Proof.
  intros [w' [outs [H1 [H2 H3]]]]. vm_compute in H1.
  injection H1 as <- <-. exact H3.
Qed.

(** C2 (corrected), amended. For a [bsl-set-drift] from the room's admin
    with a non-empty fingerprint and a non-negative [playlistIndex]: an
    integer [driftSeconds] in [[-60, 60]] is stored as is under that
    fingerprint and index in the target drift table, and every connection of
    the room (of [connectedClients] in single-room mode) whose fingerprint
    matches receives [bsl-drift-update] with the client's drift values; a
    value outside [[-60, 60]] is rejected: nothing changes, nothing is sent. *)
Theorem bsl_set_drift_stores_or_rejects cfg w sid sc fp idx d
    (Hres : resolve cfg w sid true = Some sc) (Hfp : fp <> "") (Hidx : 0 <= idx) :
  let cd := ZMap.set idx d (match JsMap.get fp (sc_drift sc) with Some x => x | None => [] end) in
  ((-60 <= d <= 60) ->
     resolve cfg (fst (bsl_set_drift cfg w sid fp idx d)) sid true
       = Some (with_drift sc (JsMap.set fp cd (sc_drift sc))) /\
     JsMap.get fp (JsMap.set fp cd (sc_drift sc)) = Some cd /\
     ZMap.get idx cd = Some d /\
     (forall s, In (s, fp) (scope_members w sc) ->
        In (Emit (ToSocket s) "bsl-drift-update" (PDrift cd))
           (snd (bsl_set_drift cfg w sid fp idx d)))) /\
  ((d < -60 \/ 60 < d) -> bsl_set_drift cfg w sid fp idx d = (w, [])).
Proof.
  intros cd. unfold bsl_set_drift, run. rewrite Hres. unfold set_drift_body.
  assert (Efp : String.eqb fp "" = false) by (apply String.eqb_neq; exact Hfp).
  assert (Eidx : (idx <? 0) = false) by (apply Z.ltb_ge; lia).
  rewrite Efp, Eidx. split.
  - intros Hd.
    assert (Er : ((-60 <=? d) && (d <=? 60)) = true)
      by (apply andb_true_iff; split; apply Z.leb_le; lia).
    assert (Ec : Z.max (-60) (Z.min 60 d) = d) by lia.
    rewrite Er, Ec. simpl. fold cd. split; [|split; [|split]].
    + unfold with_drift. apply (resolve_commit cfg w sid true sc). exact Hres.
    + apply JsMap_get_set_same.
    + apply ZMap_get_set_same.
    + intros s Hs. apply in_or_app. left.
      apply in_map_iff. exists (s, fp). split; [reflexivity|].
      apply filter_In. split; [exact Hs | apply String.eqb_refl].
  - intros Hd.
    assert (Er : ((-60 <=? d) && (d <=? 60)) = false).
    { apply andb_false_iff. destruct Hd; [left | right]; apply Z.leb_gt; lia. }
    rewrite Er. simpl. rewrite (commit_resolved cfg w sid true sc Hres). reflexivity.
Qed.

(** Witness of [bsl_set_drift_stores_or_rejects]: the admin of the
    single-room world sets 30 s of drift on entry 1 for [fpV]. *)
Lemma bsl_set_drift_stores_or_rejects_witness :
  resolve cfg_single two_entry_world "adm" true = Some (legacy_scope two_entry_world) /\
  In (Emit (ToSocket "v1") "bsl-drift-update" (PDrift [(1, 30)]))
     (snd (bsl_set_drift cfg_single two_entry_world "adm" "fpV" 1 30)).
Proof.
  split; [reflexivity|].
  pose proof (bsl_set_drift_stores_or_rejects cfg_single two_entry_world "adm"
                (legacy_scope two_entry_world) "fpV" 1 30 eq_refl ltac:(discriminate) ltac:(lia))
    as [Hin _].
  destruct (Hin ltac:(lia)) as [_ [_ [_ Hpush]]].
  apply (Hpush "v1"). simpl. tauto.
Defined.

(** ** C4: the admin gate *)

(** C4 (corrected), counterexample. In single-room mode with
    [admin_fingerprint_lock] off, [isSocketAdmin] is [true] for every
    socket: viewer [v1], which is not the admin connection [adm], gets
    [set-playlist] past the gate, no [admin-error] is sent, and the
    playlist is replaced. *)
Lemma admin_gate_open_without_lock :
  gAdminSocketId two_entry_world = Some "adm" /\
  admin_gate cfg_single two_entry_world "v1" "set-playlist" = None /\
  PLAYLIST (fst (route cfg_single two_entry_world "v1" "set-playlist"
                   (fun w => set_playlist cfg_single w "v1" [entry "x.mp4"] 0 0 7)))
  <> PLAYLIST two_entry_world.
Proof.
  split; [reflexivity | split; [reflexivity |]].
  vm_compute. discriminate.
Qed.

(** C4 (corrected), amended. For a whitelisted command: [create-room] and
    [bsl-admin-register] always reach their handler; any other one reaches
    it iff the sender is an admin in the sense of [isSocketAdmin] (server
    mode: the sender's room exists and its [adminSocketId] is the sender;
    single-room mode: the fingerprint lock is off, or the sender is in the
    verified-admin set), and is otherwise dropped before dispatch with the
    world unchanged and only [admin-error {event}] sent to the sender. *)
Theorem admin_gate_decision cfg w sid ev handler (Hev : In ev ADMIN_ONLY_EVENTS) :
  route cfg w sid ev handler =
  if String.eqb ev "create-room" || String.eqb ev "bsl-admin-register" then handler w
  else if (if SERVER_MODE cfg then
             match JsMap.get sid (socketRoomMap w) with
             | Some rc => match getRoom rc w with
                          | Some r => is_sid (adminSocketId r) sid
                          | None => false
                          end
             | None => false
             end
           else negb (ADMIN_FINGERPRINT_LOCK cfg) || existsb (String.eqb sid) (verifiedAdminSockets w))
  then handler w
  else (w, [Emit (ToSocket sid) "admin-error" (PAdminError ev)]).
Proof.
  assert (Hx : existsb (String.eqb ev) ADMIN_ONLY_EVENTS = true).
  { apply existsb_exists. exists ev. split; [exact Hev | apply String.eqb_refl]. }
  unfold route, admin_gate. rewrite Hx.
  destruct (String.eqb ev "create-room" || String.eqb ev "bsl-admin-register"); [reflexivity|].
  unfold isSocketAdmin.
  destruct (SERVER_MODE cfg).
  - destruct (JsMap.get sid (socketRoomMap w)) as [rc|]; [destruct (getRoom rc w) as [r|]|];
      [destruct (is_sid (adminSocketId r) sid)| |]; reflexivity.
  - destruct (ADMIN_FINGERPRINT_LOCK cfg); simpl;
      [destruct (existsb (String.eqb sid) (verifiedAdminSockets w))|]; reflexivity.
Qed.

(** Witness of [admin_gate_decision]: viewer [s2] of room [ABC234] sends
    [playlist-jump] and gets [admin-error]. *)
Lemma admin_gate_decision_witness :
  In "playlist-jump" ADMIN_ONLY_EVENTS /\
  route cfg_server server_world "s2" "playlist-jump"
    (fun w => playlist_jump cfg_server w "s2" 0 9)
  = (server_world, [Emit (ToSocket "s2") "admin-error" (PAdminError "playlist-jump")]).
Proof.
  split; [simpl; tauto|].
  rewrite (admin_gate_decision cfg_server server_world "s2" "playlist-jump"
             (fun w => playlist_jump cfg_server w "s2" 0 9) ltac:(simpl; tauto)).
  reflexivity.
Defined.

(** ** C7: [bsl-admin-register] under [admin_fingerprint_lock] *)

Lemma set_add_In x s : In x (set_add x s).
Proof.
  unfold set_add. destruct (existsb (String.eqb x) s) eqn:E.
  - apply existsb_exists in E as [y [Hy Heq]]. apply String.eqb_eq in Heq. now subst.
  - apply in_or_app. right. left. reflexivity.
Qed.

(** C7 (confirmed). With the lock on and a non-empty fingerprint [fp]:
    with no registered fingerprint, [fp] is bound, persisted
    ([setAdminFingerprint]) and the socket becomes a verified admin with
    [admin-auth-result {success: true}]; with a different registered
    fingerprint the world is left as it was (no admin status) and the socket
    gets [admin-auth-result {success: false, reason}] followed by a
    disconnect scheduled after [ms <= 1000]; with the same fingerprint it
    becomes a verified admin with [success: true]. *)
Theorem bsl_admin_register_lock cfg w sid fp
    (Hlock : ADMIN_FINGERPRINT_LOCK cfg = true) (Hfp : fp <> "") :
  (registeredAdminFingerprint w = None ->
     registeredAdminFingerprint (fst (bsl_admin_register cfg w sid (Some fp))) = Some fp /\
     memoryAdminFingerprint (fst (bsl_admin_register cfg w sid (Some fp))) = Some fp /\
     In sid (verifiedAdminSockets (fst (bsl_admin_register cfg w sid (Some fp)))) /\
     snd (bsl_admin_register cfg w sid (Some fp))
       = [Emit (ToSocket sid) "admin-auth-result" (PAuth true None)]) /\
  (forall r, registeredAdminFingerprint w = Some r -> r <> fp ->
     exists reason ms,
       bsl_admin_register cfg w sid (Some fp)
       = (w, [Emit (ToSocket sid) "admin-auth-result" (PAuth false (Some reason));
              DisconnectAfter sid ms]) /\ ms <= 1000) /\
  (registeredAdminFingerprint w = Some fp ->
     In sid (verifiedAdminSockets (fst (bsl_admin_register cfg w sid (Some fp)))) /\
     gAdminSocketId (fst (bsl_admin_register cfg w sid (Some fp))) = Some sid /\
     snd (bsl_admin_register cfg w sid (Some fp))
       = [Emit (ToSocket sid) "admin-auth-result" (PAuth true None)]).
Proof.
  assert (Ht : truthy (Some fp) = true).
  { unfold truthy. apply negb_true_iff, String.eqb_neq. exact Hfp. }
  unfold bsl_admin_register. rewrite Hlock, Ht. simpl negb. cbv iota.
  split; [|split].
  - intros Hn. rewrite Hn. simpl. repeat split. apply set_add_In.
  - intros r Hr Hne. rewrite Hr.
    assert (E : String.eqb r fp = false) by (apply String.eqb_neq; exact Hne).
    rewrite E. simpl. eexists; eexists; split; [reflexivity | lia].
  - intros Hr. rewrite Hr, String.eqb_refl. simpl. repeat split. apply set_add_In.
Qed.

(** Witness of [bsl_admin_register_lock]: the first admin registers [fpA]
    on a freshly started server with the lock on. *)
Lemma bsl_admin_register_lock_witness :
  registeredAdminFingerprint (fst (bsl_admin_register cfg_single_locked boot_world "adm" (Some "fpA")))
  = Some "fpA".
Proof.
  destruct (bsl_admin_register_lock cfg_single_locked boot_world "adm" "fpA" eq_refl
              ltac:(discriminate)) as [Hfirst _].
  exact (proj1 (Hfirst eq_refl)).
Defined.

(** ** C8: join-mode semantics (single-room mode) *)

(** C8 (confirmed). On every connection in single-room mode: with
    [join_mode = reset] the playback state gets [currentTime = 0] and
    [lastUpdate = now] and the new snapshot is emitted with [io.emit] to
    every connected socket (the joiner and all earlier ones); with any other
    join mode [isPlaying], [currentTime] and [lastUpdate] are kept, the
    snapshot goes to the joiner only, and the only emission that reaches
    other sockets is the [client-count] broadcast. *)
Theorem join_mode_semantics cfg w sid now :
  (JOIN_MODE cfg = "reset" ->
     currentTime (gVideoState (fst (on_connection_legacy cfg w sid now))) = 0 /\
     lastUpdate (gVideoState (fst (on_connection_legacy cfg w sid now))) = now /\
     In (Emit ToAll "sync" (PSync (gVideoState (fst (on_connection_legacy cfg w sid now)))))
        (snd (on_connection_legacy cfg w sid now)) /\
     recipients (fst (on_connection_legacy cfg w sid now)) ToAll = map fst (sockets w) ++ [sid]) /\
  (JOIN_MODE cfg <> "reset" ->
     isPlaying (gVideoState (fst (on_connection_legacy cfg w sid now))) = isPlaying (gVideoState w) /\
     currentTime (gVideoState (fst (on_connection_legacy cfg w sid now))) = currentTime (gVideoState w) /\
     lastUpdate (gVideoState (fst (on_connection_legacy cfg w sid now))) = lastUpdate (gVideoState w) /\
     In (Emit (ToSocket sid) "sync" (PSync (gVideoState (fst (on_connection_legacy cfg w sid now)))))
        (snd (on_connection_legacy cfg w sid now)) /\
     (forall t ev p, In (Emit t ev p) (snd (on_connection_legacy cfg w sid now)) ->
        t = ToSocket sid \/ (t = ToAll /\ ev = "client-count"))).
Proof.
  unfold on_connection_legacy.
  destruct (getCurrentTrackSelections (PLAYLIST (set_sockets w (sockets w ++ [(sid, [sid])]))))
    as [a s].
  split.
  - intros Hj. rewrite Hj, String.eqb_refl. simpl.
    split; [reflexivity | split; [reflexivity | split]].
    + tauto.
    + apply map_app.
  - intros Hj. apply String.eqb_neq in Hj. rewrite Hj. simpl.
    split; [reflexivity | split; [reflexivity | split; [reflexivity | split]]].
    + tauto.
    + intros t ev p Hin.
      destruct Hin as [H|[H|[H|[H|[]]]]]; injection H as <- <- _; auto.
Qed.

(** Witness of [join_mode_semantics]: with [join_mode = reset] a third
    socket joins the single-room world at playback time 30 s. *)
Lemma join_mode_semantics_witness :
  currentTime (gVideoState (fst (on_connection_legacy cfg_single_reset two_entry_world "v2" 500))) = 0 /\
  recipients (fst (on_connection_legacy cfg_single_reset two_entry_world "v2" 500)) ToAll
  = ["adm"; "v1"; "v2"].
Proof.
  destruct (proj1 (join_mode_semantics cfg_single_reset two_entry_world "v2" 500) eq_refl)
    as [H0 [_ [_ Hr]]].
  split; [exact H0 | exact Hr].
Defined.

(** * Further properties of the handlers *)

(** ** Lists updated by index *)

Lemma replace_nth_length {A} n (x : A) l : length (replace_nth n x l) = length l.
Proof. revert n; induction l as [|y r IH]; intros [|n]; simpl; auto. Qed.

Lemma nth_error_replace_nth_same {A} n (x : A) l :
  (n < length l)%nat -> nth_error (replace_nth n x l) n = Some x.
Proof.
  revert n; induction l as [|y r IH]; intros [|n] H; simpl in *; try lia; auto.
  apply IH; lia.
Qed.

Lemma nth_error_replace_nth_other {A} n m (x : A) l :
  n <> m -> nth_error (replace_nth n x l) m = nth_error l m.
Proof.
  revert n m; induction l as [|y r IH]; intros [|n] [|m] H; simpl; auto; congruence.
Qed.

Lemma nth_z_nat {A} i (l : list A) : 0 <= i -> nth_z i l = nth_error l (Z.to_nat i).
Proof. intros H. unfold nth_z. destruct (Z.ltb_spec i 0); [lia | reflexivity]. Qed.

Lemma nth_z_in_range {A} i (l : list A) : 0 <= i < len_z l -> exists v, nth_z i l = Some v.
Proof.
  intros H. rewrite nth_z_nat by lia. unfold len_z in H.
  destruct (nth_error l (Z.to_nat i)) as [v|] eqn:E; [eauto|].
  apply nth_error_None in E. pose proof (Z2Nat.id i). lia.
Qed.

Lemma swap_entries_length {A} (l : list A) f t : length (swap_entries l f t) = length l.
Proof.
  unfold swap_entries. destruct (nth_z f l), (nth_z t l); auto.
  now rewrite !replace_nth_length.
Qed.

Lemma swap_entries_nth {A} (l : list A) f t m :
  0 <= f < len_z l -> 0 <= t < len_z l ->
  nth_error (swap_entries l f t) m =
  if Nat.eqb m (Z.to_nat t) then nth_error l (Z.to_nat f)
  else if Nat.eqb m (Z.to_nat f) then nth_error l (Z.to_nat t)
  else nth_error l m.
Proof.
  intros Hf Ht.
  destruct (nth_z_in_range f l Hf) as [vf Ef].
  destruct (nth_z_in_range t l Ht) as [vt Et].
  unfold swap_entries. rewrite Ef, Et.
  rewrite nth_z_nat in Ef, Et by lia.
  unfold len_z in Hf, Ht. pose proof (Z2Nat.id f). pose proof (Z2Nat.id t).
  destruct (Nat.eqb_spec m (Z.to_nat t)) as [->|Hmt].
  - rewrite nth_error_replace_nth_same; [congruence|].
    rewrite replace_nth_length. lia.
  - rewrite nth_error_replace_nth_other by congruence.
    destruct (Nat.eqb_spec m (Z.to_nat f)) as [->|Hmf].
    + rewrite nth_error_replace_nth_same; [congruence | lia].
    + now rewrite nth_error_replace_nth_other by congruence.
Qed.

Lemma swap_entries_involutive {A} (l : list A) f t :
  0 <= f < len_z l -> 0 <= t < len_z l -> swap_entries (swap_entries l f t) f t = l.
Proof.
  intros Hf Ht.
  assert (Hl : len_z (swap_entries l f t) = len_z l)
    by (unfold len_z; now rewrite swap_entries_length).
  apply nth_error_ext. intros m.
  rewrite !swap_entries_nth by lia.
  repeat match goal with |- context [Nat.eqb ?a ?b] => destruct (Nat.eqb_spec a b) end;
    congruence.
Qed.

(** An index that follows the swap (the [currentIndex] / [mainVideoIndex]
    update of [playlist-reorder]) still designates the same entry. *)
Lemma swap_entries_follow {A} (l : list A) f t i :
  0 <= f < len_z l -> 0 <= t < len_z l ->
  nth_z (if i =? f then t else if i =? t then f else i) (swap_entries l f t) = nth_z i l.
Proof.
  intros Hf Ht. pose proof (Z2Nat.id f). pose proof (Z2Nat.id t).
  destruct (Z.eqb_spec i f) as [->|Hif].
  - rewrite !nth_z_nat by lia. rewrite swap_entries_nth by lia. now rewrite Nat.eqb_refl.
  - destruct (Z.eqb_spec i t) as [->|Hit].
    + rewrite !nth_z_nat by lia. rewrite swap_entries_nth by lia.
      destruct (Nat.eqb_spec (Z.to_nat f) (Z.to_nat t)); [lia|]. now rewrite Nat.eqb_refl.
    + destruct (Z.ltb_spec i 0).
      * unfold nth_z. destruct (Z.ltb_spec i 0); [reflexivity | lia].
      * rewrite !nth_z_nat by lia. rewrite swap_entries_nth by lia.
        pose proof (Z2Nat.id i).
        destruct (Nat.eqb_spec (Z.to_nat i) (Z.to_nat t)); [lia|].
        destruct (Nat.eqb_spec (Z.to_nat i) (Z.to_nat f)); [lia|]. reflexivity.
Qed.

(** ** Committing twice to the same target *)

Lemma JsMap_set_set2 {V} (k : string) (v1 v2 : V) m :
  JsMap.set k v2 (JsMap.set k v1 m) = JsMap.set k v2 m.
Proof.
  induction m as [|[k' v'] r IH]; simpl.
  - rewrite String.eqb_refl. reflexivity.
  - destruct (String.eqb k k') eqn:E; simpl; rewrite E; [reflexivity | now rewrite IH].
Qed.

Lemma commit_twice w sc1 sc2 : sc_code sc1 = sc_code sc2 -> commit (commit w sc1) sc2 = commit w sc2.
Proof.
  intros Hc. unfold commit at 2. destruct (sc_code sc1) as [rc|] eqn:Hc1.
  - destruct (getRoom rc w) as [r|] eqn:Hr.
    + unfold commit. rewrite <- Hc. rewrite Hr.
      assert (Hg : getRoom rc (set_rooms w (JsMap.set (toUpperCase rc) (rebuild r sc1) (rooms w)))
                   = Some (rebuild r sc1)).
      { unfold getRoom, set_rooms; simpl. apply JsMap_get_set_same. }
      fold (rebuild r sc1). rewrite Hg. unfold set_rooms; simpl. f_equal.
      apply JsMap_set_set2.
    + unfold commit. rewrite <- Hc, Hr. reflexivity.
  - unfold commit. rewrite <- Hc. reflexivity.
Qed.

(** ** [playlist-jump] *)

(** [playlist-jump] from the admin: an index in [[0, len)] becomes the
    current index, playback restarts at 0 with [lastUpdate = now] and the
    entry's own track selections, and [playlist-position] is broadcast; any
    other index is dropped with the world unchanged and nothing sent. *)
Theorem playlist_jump_bounds cfg w sid sc index now
    (Hres : resolve cfg w sid true = Some sc) :
  (0 <= index < len_z (videos (sc_playlist sc)) ->
     exists v, nth_z index (videos (sc_playlist sc)) = Some v /\
       resolve cfg (fst (playlist_jump cfg w sid index now)) sid true
       = Some (with_pl_st sc (set_currentIndex (sc_playlist sc) index)
                 (mkVideoState (isPlaying (sc_state sc)) 0 now (entry_audio v) (entry_subtitle v))) /\
       In (Emit (fanout sc) "playlist-position" (PIndex index))
          (snd (playlist_jump cfg w sid index now))) /\
  ((index < 0 \/ len_z (videos (sc_playlist sc)) <= index) ->
     playlist_jump cfg w sid index now = (w, [])).
Proof.
  unfold playlist_jump, run. rewrite Hres. unfold playlist_jump_body, validatePlaylistIndex.
  split.
  - intros Hi. destruct (nth_z_in_range _ _ Hi) as [v Ev].
    assert (E : ((0 <=? index) && (index <? len_z (videos (sc_playlist sc)))) = true)
      by (apply andb_true_iff; split; [apply Z.leb_le | apply Z.ltb_lt]; lia).
    rewrite E, Ev. exists v. simpl. split; [reflexivity | split; [|tauto]].
    apply resolve_commit; exact Hres.
  - intros Hi.
    assert (E : ((0 <=? index) && (index <? len_z (videos (sc_playlist sc)))) = false).
    { apply andb_false_iff. destruct Hi; [left; apply Z.leb_gt | right; apply Z.ltb_ge]; lia. }
    rewrite E. simpl. now rewrite (commit_resolved cfg w sid true sc Hres).
Qed.

(** ** [skip-to-next-video] *)

(** [skip-to-next-video] from the admin: on an empty playlist nothing
    happens; otherwise, from a current index in [[-1, len)], the next entry
    (the first one after the last) becomes current, playback restarts at 0
    with that entry's track selections, and the handler does not throw. *)
Theorem skip_to_next_video_wraps cfg w sid sc now
    (Hres : resolve cfg w sid true = Some sc) :
  (videos (sc_playlist sc) = [] -> skip_to_next_video cfg w sid now = (w, [])) /\
  (videos (sc_playlist sc) <> [] ->
   -1 <= currentIndex (sc_playlist sc) < len_z (videos (sc_playlist sc)) ->
   let next := if currentIndex (sc_playlist sc) + 1 =? len_z (videos (sc_playlist sc))
               then 0 else currentIndex (sc_playlist sc) + 1 in
   0 <= next < len_z (videos (sc_playlist sc)) /\
   exists v, nth_z next (videos (sc_playlist sc)) = Some v /\
     resolve cfg (fst (skip_to_next_video cfg w sid now)) sid true
     = Some (with_pl_st sc (set_currentIndex (sc_playlist sc) next)
               (mkVideoState (isPlaying (sc_state sc)) 0 now (entry_audio v) (entry_subtitle v))) /\
     ~ In Throws (snd (skip_to_next_video cfg w sid now))).
Proof.
  unfold skip_to_next_video, run. rewrite Hres. unfold skip_to_next_body. split.
  - intros He. rewrite He. simpl. now rewrite (commit_resolved cfg w sid true sc Hres).
  - intros Hne Hci.
    set (next := if currentIndex (sc_playlist sc) + 1 =? len_z (videos (sc_playlist sc))
                 then 0 else currentIndex (sc_playlist sc) + 1).
    assert (Hn : 0 < len_z (videos (sc_playlist sc))).
    { unfold len_z. destruct (videos (sc_playlist sc)); [congruence | simpl; lia]. }
    assert (Er : Z.rem (currentIndex (sc_playlist sc) + 1) (len_z (videos (sc_playlist sc))) = next).
    { unfold next. destruct (Z.eqb_spec (currentIndex (sc_playlist sc) + 1)
                                        (len_z (videos (sc_playlist sc)))) as [E|E].
      - rewrite E. apply Z.rem_same. lia.
      - apply Z.rem_small. lia. }
    assert (Hb : 0 <= next < len_z (videos (sc_playlist sc))).
    { unfold next. destruct (Z.eqb_spec (currentIndex (sc_playlist sc) + 1)
                                        (len_z (videos (sc_playlist sc)))); lia. }
    destruct (nth_z_in_range _ _ Hb) as [v Ev].
    assert (E0 : (len_z (videos (sc_playlist sc)) =? 0) = false) by (apply Z.eqb_neq; lia).
    rewrite E0, Er, Ev. split; [exact Hb|]. exists v. simpl.
    split; [reflexivity | split].
    + apply resolve_commit; exact Hres.
    + intros [H|[H|[H|[]]]]; discriminate.
Qed.

(** ** [playlist-reorder] *)

Lemma playlist_reorder_body_shape f t sc :
  0 <= f < len_z (videos (sc_playlist sc)) -> 0 <= t < len_z (videos (sc_playlist sc)) ->
  let p := sc_playlist sc in
  playlist_reorder_body f t sc
  = (with_pl_st sc
       (mkPlaylist (swap_entries (videos p) f t)
          (if currentIndex p =? f then t else if currentIndex p =? t then f else currentIndex p)
          (if mainVideoIndex p =? f then t else if mainVideoIndex p =? t then f else mainVideoIndex p)
          (mainVideoStartTime p) (preloadMainVideo p))
       (sc_state sc),
     [Emit (fanout sc) "playlist-update"
        (PPlaylist (mkPlaylist (swap_entries (videos p) f t)
          (if currentIndex p =? f then t else if currentIndex p =? t then f else currentIndex p)
          (if mainVideoIndex p =? f then t else if mainVideoIndex p =? t then f else mainVideoIndex p)
          (mainVideoStartTime p) (preloadMainVideo p)))]).
Proof.
  intros Hf Ht p. unfold playlist_reorder_body. fold p.
  assert (E : ((f <? 0) || (f >=? len_z (videos p)) || (t <? 0) || (t >=? len_z (videos p))) = false).
  { rewrite !orb_false_iff, Z.ltb_ge, Z.geb_leb, Z.leb_gt, Z.ltb_ge, Z.geb_leb, Z.leb_gt.
    unfold p. lia. }
  rewrite E. destruct p as [vs ci mvi mst pre]; simpl.
  destruct (mvi =? f); [|destruct (mvi =? t)]; simpl;
    (destruct (ci =? f); [|destruct (ci =? t)]); reflexivity.
Qed.

Lemma playlist_reorder_body_reject f t sc :
  (f < 0 \/ len_z (videos (sc_playlist sc)) <= f \/ t < 0 \/ len_z (videos (sc_playlist sc)) <= t) ->
  playlist_reorder_body f t sc = (sc, []).
Proof.
  intros Hi. unfold playlist_reorder_body.
  assert (E : ((f <? 0) || (f >=? len_z (videos (sc_playlist sc))) || (t <? 0)
               || (t >=? len_z (videos (sc_playlist sc)))) = true).
  { destruct Hi as [H|[H|[H|H]]].
    - rewrite (proj2 (Z.ltb_lt f 0) H). reflexivity.
    - rewrite (proj2 (Z.geb_le f _) H), orb_true_r. reflexivity.
    - rewrite (proj2 (Z.ltb_lt t 0) H), orb_true_r. reflexivity.
    - rewrite (proj2 (Z.geb_le t _) H), orb_true_r. reflexivity. }
  now rewrite E.
Qed.

(** [playlist-reorder] from the admin with both indices in range swaps the
    two entries and keeps the playlist's length; [currentIndex] and
    [mainVideoIndex] follow their entries, so the entry playing and the main
    entry are the same videos as before, and the playback state is not
    touched.  With an index out of range nothing changes and nothing is sent. *)
Theorem playlist_reorder_follows cfg w sid sc f t
    (Hres : resolve cfg w sid true = Some sc) :
  let p := sc_playlist sc in
  (0 <= f < len_z (videos p) -> 0 <= t < len_z (videos p) ->
     exists sc', resolve cfg (fst (playlist_reorder cfg w sid f t)) sid true = Some sc' /\
       len_z (videos (sc_playlist sc')) = len_z (videos p) /\
       nth_z (currentIndex (sc_playlist sc')) (videos (sc_playlist sc'))
         = nth_z (currentIndex p) (videos p) /\
       nth_z (mainVideoIndex (sc_playlist sc')) (videos (sc_playlist sc'))
         = nth_z (mainVideoIndex p) (videos p) /\
       sc_state sc' = sc_state sc) /\
  ((f < 0 \/ len_z (videos p) <= f \/ t < 0 \/ len_z (videos p) <= t) ->
     playlist_reorder cfg w sid f t = (w, [])).
Proof.
  intros p. unfold playlist_reorder, run. rewrite Hres. split.
  - intros Hf Ht. rewrite (playlist_reorder_body_shape f t sc Hf Ht). fold p.
    eexists. split; [apply resolve_commit; exact Hres|]. simpl.
    split; [|split; [|split; [|reflexivity]]].
    + unfold len_z. now rewrite swap_entries_length.
    + apply swap_entries_follow; assumption.
    + apply swap_entries_follow; assumption.
  - intros Hi. rewrite (playlist_reorder_body_reject f t sc Hi).
    now rewrite (commit_resolved cfg w sid true sc Hres).
Qed.

(** Sending the same [playlist-reorder] twice gives back the world as it
    was: the entries, [currentIndex] and [mainVideoIndex] are swapped back
    (and a rejected request changes nothing either time). *)
Theorem playlist_reorder_twice cfg w sid f t :
  fst (playlist_reorder cfg (fst (playlist_reorder cfg w sid f t)) sid f t) = w.
Proof.
  unfold playlist_reorder, run.
  destruct (resolve cfg w sid true) as [sc|] eqn:Hres; [|simpl; now rewrite Hres].
  destruct (Z_le_gt_dec 0 f), (Z_lt_ge_dec f (len_z (videos (sc_playlist sc)))),
           (Z_le_gt_dec 0 t), (Z_lt_ge_dec t (len_z (videos (sc_playlist sc))));
    try (rewrite playlist_reorder_body_reject by lia; simpl;
         rewrite (commit_resolved cfg w sid true sc Hres), Hres;
         rewrite playlist_reorder_body_reject by lia; simpl;
         exact (commit_resolved cfg w sid true sc Hres)).
  assert (Hf : 0 <= f < len_z (videos (sc_playlist sc))) by lia.
  assert (Ht : 0 <= t < len_z (videos (sc_playlist sc))) by lia.
  rewrite (playlist_reorder_body_shape f t sc Hf Ht). simpl fst.
  unfold with_pl_st at 1. rewrite (resolve_commit cfg w sid true sc _ _ _ _ Hres).
  assert (Hl : len_z (swap_entries (videos (sc_playlist sc)) f t) = len_z (videos (sc_playlist sc)))
    by (unfold len_z; now rewrite swap_entries_length).
  rewrite playlist_reorder_body_shape by (simpl; lia). simpl fst.
  rewrite commit_twice by reflexivity.
  rewrite <- (commit_resolved cfg w sid true sc Hres) at 2.
  f_equal. destruct sc as [c [vs ci mvi mst pre] st bs dr adm]. simpl in *.
  unfold with_pl_st; simpl. rewrite swap_entries_involutive by lia.
  f_equal. f_equal;
    destruct (Z.eqb_spec ci f), (Z.eqb_spec ci t), (Z.eqb_spec mvi f), (Z.eqb_spec mvi t); simpl;
    repeat (match goal with |- context [?a =? ?b] => destruct (Z.eqb_spec a b) end; simpl); lia.
Qed.


(** ** String lemmas *)

Lemma sapp_assoc (a b c : string) : ((a ++ b) ++ c = a ++ (b ++ c))%string.
Proof. induction a as [|x a IH]; simpl; congruence. Qed.

Lemma slength_app (a b : string) : String.length (a ++ b) = (String.length a + String.length b)%nat.
Proof. induction a as [|x a IH]; simpl; auto. Qed.

Lemma list_ascii_app (a b : string) :
  list_ascii_of_string (a ++ b) = list_ascii_of_string a ++ list_ascii_of_string b.
Proof. induction a as [|x a IH]; simpl; congruence. Qed.

Lemma sapp_nil_r (a : string) : (a ++ EmptyString = a)%string.
Proof. induction a as [|x a IH]; simpl; congruence. Qed.

Lemma includes_char_false s c :
  includes s (String c EmptyString) = false -> ~ In c (list_ascii_of_string s).
Proof.
  induction s as [|d r IH]; simpl; [tauto|].
  destruct (ascii_dec c d) as [->|Hcd]; simpl; [destruct r; simpl; intros H; discriminate|].
  intros H [Hd|Hin]; [congruence | exact (IH H Hin)].
Qed.

Lemma split_slash_no_slash s cur :
  ~ In "/"%char (list_ascii_of_string s) -> split_slash s cur = [(cur ++ s)%string].
Proof.
  revert cur. induction s as [|c r IH]; intros cur H; simpl.
  - now rewrite sapp_nil_r.
  - simpl in H. destruct (Ascii.eqb_spec c "/"); [tauto|].
    rewrite IH by tauto. now rewrite sapp_assoc.
Qed.

(** ** [validateFilename] *)

(** A name accepted by [validateFilename] is non-empty, at most 255
    characters long, holds no [..], no [/], no [\] and no shell
    metacharacter, and is its own [path.basename]: joined under [media] it
    names a file directly inside that directory. *)
Theorem validateFilename_accepts_plain_names f (Hv : validateFilename f = true) :
  f <> "" /\ (String.length f <= 255)%nat /\ includes f ".." = false /\
  ~ In "/"%char (list_ascii_of_string f) /\ ~ In "\"%char (list_ascii_of_string f) /\
  (forall c, In c (list_ascii_of_string f) -> shell_metachar c = false) /\
  basename f = f.
Proof.
  unfold validateFilename in Hv.
  destruct (String.eqb_spec f "") as [_|Hne]; [discriminate|].
  destruct (Nat.ltb_spec 255 (String.length f)); [discriminate|].
  destruct (includes f "..") eqn:E1; [discriminate|].
  destruct (includes f "/") eqn:E2; [discriminate|].
  destruct (includes f "\") eqn:E3; [discriminate|]. simpl in Hv.
  destruct (existsb shell_metachar (list_ascii_of_string f)) eqn:E4; [discriminate|].
  assert (Hs : ~ In "/"%char (list_ascii_of_string f)) by (apply includes_char_false; exact E2).
  repeat split; auto.
  - apply includes_char_false. exact E3.
  - intros c Hc. destruct (shell_metachar c) eqn:Ec; [|reflexivity].
    rewrite <- E4. symmetry. apply existsb_exists. eauto.
  - unfold basename. rewrite split_slash_no_slash by exact Hs. simpl.
    destruct (String.eqb_spec f ""); [contradiction | reflexivity].
Qed.

(** ** [escapeHTML] *)

Lemma replace_char_removes c r s :
  ~ In c (list_ascii_of_string r) -> ~ In c (list_ascii_of_string (replace_char c r s)).
Proof.
  intros Hr. induction s as [|d t IH]; simpl; [tauto|].
  destruct (Ascii.eqb_spec c d) as [->|Hcd].
  - rewrite list_ascii_app. intros Hin. apply in_app_or in Hin. tauto.
  - simpl. intros [H|H]; [congruence | tauto].
Qed.

Lemma replace_char_keeps_out c d r s :
  ~ In c (list_ascii_of_string r) -> ~ In c (list_ascii_of_string s) ->
  ~ In c (list_ascii_of_string (replace_char d r s)).
Proof.
  intros Hr. induction s as [|e t IH]; simpl; [tauto|]. intros Hs.
  destruct (Ascii.eqb d e).
  - rewrite list_ascii_app. intros Hin. apply in_app_or in Hin. tauto.
  - simpl. intros [H|H]; tauto.
Qed.

Lemma replace_char_absent c r s :
  ~ In c (list_ascii_of_string s) -> replace_char c r s = s.
Proof.
  induction s as [|d t IH]; simpl; [reflexivity|]. intros Hs.
  destruct (Ascii.eqb_spec c d); [subst; tauto|]. rewrite IH by tauto. reflexivity.
Qed.

Ltac not_in_lit :=
  let H := fresh in intros H; vm_compute in H; repeat destruct H as [H|H]; solve [discriminate | contradiction].

Lemma escapeHTML_safe s c :
  In c ["<"%char; ">"%char; dquote; squote] -> ~ In c (list_ascii_of_string (escapeHTML s)).
Proof.
  intros Hc. unfold escapeHTML.
  destruct Hc as [<-|[<-|[<-|[<-|[]]]]].
  - do 3 (apply replace_char_keeps_out; [not_in_lit|]).
    apply replace_char_removes. not_in_lit.
  - do 2 (apply replace_char_keeps_out; [not_in_lit|]).
    apply replace_char_removes. not_in_lit.
  - do 1 (apply replace_char_keeps_out; [not_in_lit|]).
    apply replace_char_removes. not_in_lit.
  - apply replace_char_removes. not_in_lit.
Qed.

(** The output of [escapeHTML] never contains [<], [>], a double or a
    single quote, whatever the input; a text without any of the five
    characters [&], [<], [>] and the two quotes comes out unchanged. *)
Theorem escapeHTML_no_markup s :
  (forall c, In c ["<"%char; ">"%char; dquote; squote] ->
     ~ In c (list_ascii_of_string (escapeHTML s))) /\
  ((forall c, In c ["&"%char; "<"%char; ">"%char; dquote; squote] ->
     ~ In c (list_ascii_of_string s)) -> escapeHTML s = s).
Proof.
  split.
  - intros c Hc. apply escapeHTML_safe. exact Hc.
  - intros H. unfold escapeHTML.
    rewrite (replace_char_absent "&") by (apply H; simpl; tauto).
    rewrite (replace_char_absent "<") by (apply H; simpl; tauto).
    rewrite (replace_char_absent ">") by (apply H; simpl; tauto).
    rewrite (replace_char_absent dquote) by (apply H; simpl; tauto).
    rewrite (replace_char_absent squote) by (apply H; simpl; tauto).
    reflexivity.
Qed.

(** ** [parseInt] reads back [String(n)] *)

Lemma digit_char_value d : 0 <= d < 10 -> digit_value (digit_char d) = Some d.
Proof.
  intros H.
  assert (d = 0 \/ d = 1 \/ d = 2 \/ d = 3 \/ d = 4 \/ d = 5 \/ d = 6 \/ d = 7 \/ d = 8 \/ d = 9)
    as Hd by lia.
  repeat destruct Hd as [->|Hd]; try reflexivity. subst. reflexivity.
Qed.

Lemma dec_string_parse f : forall n t a seen, 0 <= n < Z.of_nat f ->
  digits_prefix 10 (dec_string f n ++ t) a seen =
  digits_prefix 10 t (a * 10 ^ Z.of_nat (String.length (dec_string f n)) + n) true.
Proof.
  induction f as [|f IH]; intros n t a seen H; [lia|]. simpl dec_string.
  destruct (Z.ltb_spec n 10).
  - simpl. rewrite digit_char_value by lia. destruct (Z.ltb_spec n 10); [|lia].
    f_equal; lia.
  - rewrite sapp_assoc.
    assert (Hq : 0 <= n / 10 < Z.of_nat f).
    { split; [apply Z.div_pos; lia|]. assert (n / 10 < n) by (apply Z.div_lt; lia). lia. }
    rewrite IH by exact Hq. simpl.
    pose proof (Z.mod_pos_bound n 10 ltac:(lia)) as Hm.
    rewrite digit_char_value by lia. destruct (Z.ltb_spec (n mod 10) 10); [|lia].
    f_equal. rewrite slength_app. simpl String.length.
    rewrite Nat2Z.inj_add, Z.pow_add_r by lia.
    pose proof (Z.div_mod n 10 ltac:(lia)). simpl (10 ^ Z.of_nat 1). nia.
Qed.

Lemma dec_string_shape f : forall n, 0 <= n < Z.of_nat f ->
  exists d r, 0 <= d < 10 /\ dec_string f n = String (digit_char d) r /\
    (r = EmptyString \/ exists d' r', 0 <= d' < 10 /\ r = String (digit_char d') r').
Proof.
  induction f as [|f IH]; intros n H; [lia|]. simpl dec_string.
  destruct (Z.ltb_spec n 10).
  - exists n, EmptyString. split; [lia | auto].
  - assert (Hq : 0 <= n / 10 < Z.of_nat f).
    { split; [apply Z.div_pos; lia|]. assert (n / 10 < n) by (apply Z.div_lt; lia). lia. }
    destruct (IH (n / 10) Hq) as [d [r [Hd [-> Hr]]]].
    pose proof (Z.mod_pos_bound n 10 ltac:(lia)) as Hm.
    exists d, (r ++ String (digit_char (n mod 10)) EmptyString)%string.
    split; [exact Hd | split; [reflexivity|]]. right.
    destruct Hr as [->|[d' [r' [Hd' ->]]]].
    + exists (n mod 10), EmptyString. split; [lia | auto].
    + exists d', (r' ++ String (digit_char (n mod 10)) EmptyString)%string. split; [lia | auto].
Qed.

Ltac digits_done :=
  repeat match goal with
         | |- context [digits_prefix ?a ?b ?c ?d] => destruct (digits_prefix a b c d) as [[]|]
         end; reflexivity.

Lemma parseInt_decimal d r :
  0 <= d < 10 ->
  (r = EmptyString \/ exists d' r', 0 <= d' < 10 /\ r = String (digit_char d') r') ->
  parseInt (String (digit_char d) r) = digits_prefix 10 (String (digit_char d) r) 0 false.
Proof.
  intros Hd Hr.
  assert (d = 0 \/ d = 1 \/ d = 2 \/ d = 3 \/ d = 4 \/ d = 5 \/ d = 6 \/ d = 7 \/ d = 8 \/ d = 9)
    as Hc by lia.
  unfold parseInt.
  destruct Hc as [->|Hc].
  - destruct Hr as [->|[d' [r' [Hd' ->]]]]; simpl; [reflexivity|].
    assert (d' = 0 \/ d' = 1 \/ d' = 2 \/ d' = 3 \/ d' = 4 \/ d' = 5 \/ d' = 6 \/ d' = 7 \/
            d' = 8 \/ d' = 9) as Hc' by lia.
    repeat destruct Hc' as [->|Hc']; try (subst d'); simpl; digits_done.
  - repeat destruct Hc as [->|Hc]; try (subst d); simpl; digits_done.
Qed.

Lemma parseInt_String_of_Z n : 0 <= n -> parseInt (String_of_Z n) = Some n.
Proof.
  intros Hn. unfold String_of_Z. destruct (Z.ltb_spec n 0); [lia|].
  assert (Hf : 0 <= n < Z.of_nat (S (Z.to_nat n))) by lia.
  destruct (dec_string_shape _ _ Hf) as [d [r [Hd [Hs Hr]]]].
  rewrite Hs, parseInt_decimal by assumption. rewrite <- Hs.
  rewrite <- (sapp_nil_r (dec_string _ n)), dec_string_parse by exact Hf.
  simpl. reflexivity.
Qed.

(** [getConfig] with [validators.range(min, max)] and then
    [parseInt(String(...)) || dflt]: the configured value when it parses to
    a number in range, the fallback's otherwise. *)
Lemma range_config env file fb dflt min max (Hmin : 0 < min) :
  or_num (parseInt (js_String (getConfig env file fb (Some (range min max))))) dflt =
  match parseInt (match env with Some e => e | None => match file with Some f => f | None => fb end end) with
  | Some n => if (min <=? n) && (n <=? max) then n else or_num (parseInt fb) dflt
  | None => or_num (parseInt fb) dflt
  end.
Proof.
  unfold getConfig, range.
  destruct (parseInt (match env with Some e => e | None => match file with Some f => f | None => fb end end))
    as [n|]; [|reflexivity].
  destruct (Z.ltb_spec n min), (Z.ltb_spec max n), (Z.leb_spec min n), (Z.leb_spec n max);
    try lia; simpl; try reflexivity.
  rewrite parseInt_String_of_Z by lia. simpl. destruct (Z.eqb_spec n 0); [lia | reflexivity].
Qed.

(** The numeric settings [PORT], [SKIP_SECONDS] and [VOLUME_STEP] are the
    value of the [SYNC_*] environment variable if set, else of
    [config.env], else the default, when that value parses ([parseInt]) to
    an integer within the validator's range, and the default otherwise; so
    they always lie in [[1024, 49151]], [[5, 60]] and [[1, 20]]. *)
Theorem config_numeric_settings env file :
  let value fb := match env with Some e => e | None => match file with Some f => f | None => fb end end in
  let pick fb lo hi d := match parseInt (value fb) with
                         | Some n => if (lo <=? n) && (n <=? hi) then n else d
                         | None => d
                         end in
  PORT env file = pick "3000" 1024 49151 3000 /\ 1024 <= PORT env file <= 49151 /\
  SKIP_SECONDS env file = pick "5" 5 60 5 /\ 5 <= SKIP_SECONDS env file <= 60 /\
  VOLUME_STEP env file = pick "5" 1 20 5 /\ 1 <= VOLUME_STEP env file <= 20.
Proof.
  intros value pick.
  assert (Hp : PORT env file = pick "3000" 1024 49151 3000).
  { exact (range_config env file "3000" 3000 1024 49151 ltac:(lia)). }
  assert (Hs : SKIP_SECONDS env file = pick "5" 5 60 5).
  { exact (range_config env file "5" 5 5 60 ltac:(lia)). }
  assert (Hv : VOLUME_STEP env file = pick "5" 1 20 5).
  { exact (range_config env file "5" 5 1 20 ltac:(lia)). }
  rewrite Hp, Hs, Hv. unfold pick.
  repeat split;
    match goal with
    | |- context [match parseInt ?v with _ => _ end] =>
        destruct (parseInt v) as [n|]; [|lia];
        repeat match goal with |- context [?a <=? ?b] => destruct (Z.leb_spec a b) end;
        simpl; lia
    end.
Qed.

(** ** [chat-message] *)

Lemma substring_length_le n m s : (String.length (String.substring n m s) <= m)%nat.
Proof.
  revert n m. induction s as [|c s IH]; intros [|n] [|m]; simpl; try lia; try apply IH.
  specialize (IH 0%nat m). lia.
Qed.

Lemma or_default_trim m : or_default (option_map trim (Some m)) "" = trim m.
Proof. simpl. destruct (String.eqb_spec (trim m) ""); congruence. Qed.

Ltac split_in H :=
  repeat match type of H with
         | In _ (_ :: _) => destruct H as [H|H]
         | In _ [] => destruct H
         | _ \/ _ => destruct H as [H|H]
         | False => destruct H
         end.

Ltac case_chat H :=
  repeat (match type of H with
          | context [if ?x then _ else _] => destruct x
          | context [match ?x with Some _ => _ | None => _ end] => destruct x
          end; simpl in H).

(** Every chat message the server broadcasts ([chat-message], to the room in
    server mode, to everyone otherwise) has a sender and a text holding no
    [<], [>] or quote character, whatever the client sent: user text only
    goes out through [escapeHTML]. *)
Theorem chat_message_escaped cfg en w names sid msg sender t s m b
    (Hin : In (ChatEmit t s m b) (snd (chat_message cfg en w names sid msg sender))) :
  forall c, In c ["<"%char; ">"%char; dquote; squote] ->
    ~ In c (list_ascii_of_string s) /\ ~ In c (list_ascii_of_string m).
Proof.
  intros c Hc. unfold chat_message in Hin. simpl in Hin.
  case_chat Hin; split_in Hin; try contradiction; try discriminate; injection Hin as <- <- <- <-;
    split; try (apply escapeHTML_safe; exact Hc).
  all: first
    [ destruct Hc as [<-|[<-|[<-|[<-|[]]]]]; not_in_lit
    | rewrite !list_ascii_app; intros Hx;
      apply in_app_or in Hx as [Hx|Hx]; [exact (escapeHTML_safe _ _ Hc Hx)|];
      simpl in Hx;
      repeat (destruct Hx as [Hx|Hx]; [subst c; revert Hc; not_in_lit|]);
      exact (escapeHTML_safe _ _ Hc Hx) ].
Qed.

(** A chat text that, trimmed and lower-cased, starts with [/rename ] is
    never broadcast as a user message: either nothing changes, or the
    sender's connection has a fingerprint and the new name (non-empty, at
    most 32 characters) is stored under that fingerprint and sent back with
    [name-updated]. *)
Theorem chat_message_rename cfg en w names sid msg sender
    (Hr : startsWith (toLowerCase (trim msg)) "/rename " = true) :
  let '(names', outs) := chat_message cfg en w names sid (Some msg) sender in
  (forall t s m, ~ In (ChatEmit t s m false) outs) /\
  (names' = names \/
   exists fp newName, JsMap.get sid (connectedClients w) = Some fp /\
     names' = JsMap.set fp newName names /\ newName <> "" /\
     (String.length newName <= 32)%nat /\ In (NameUpdated sid newName) outs).
Proof.
  unfold chat_message. rewrite or_default_trim, Hr.
  destruct en; simpl; [|split; [tauto | left; reflexivity]].
  destruct (if SERVER_MODE cfg then _ else _) as [t|];
    [|split; [tauto | left; reflexivity]].
  destruct (String.eqb_spec (substring_to (trim (substring_from (trim msg) 8)) 32) "") as [He|Hne];
    [split; [tauto | left; reflexivity]|].
  destruct (JsMap.get sid (connectedClients w)) as [fp|] eqn:Hfp;
    [|split; [tauto | left; reflexivity]].
  destruct (String.eqb_spec fp "") as [_|Hfp']; [split; [tauto | left; reflexivity]|].
  split.
  - intros t' s m [H|[H|[]]]; discriminate.
  - right. eexists; eexists. split; [reflexivity|]. split; [reflexivity|].
    split; [exact Hne|]. split; [apply substring_length_le|]. simpl; tauto.
Qed.

(** ** Witnesses of the playlist, file-name and chat properties *)

(** Witness of [playlist_jump_bounds]: the admin of the single-room world
    jumps to entry 5 of a 2-entry playlist, which changes nothing. *)
Lemma playlist_jump_bounds_witness :
  resolve cfg_single two_entry_world "adm" true = Some (legacy_scope two_entry_world) /\
  playlist_jump cfg_single two_entry_world "adm" 5 9 = (two_entry_world, []).
Proof.
  split; [reflexivity|].
  exact (proj2 (playlist_jump_bounds cfg_single two_entry_world "adm"
                  (legacy_scope two_entry_world) 5 9 eq_refl)
               ltac:(right; unfold len_z; simpl; lia)).
Defined.

(** Witness of [skip_to_next_video_wraps]: from the last of two entries the
    admin skips back to entry 0 without an exception. *)
Lemma skip_to_next_video_wraps_witness :
  resolve cfg_single two_entry_world "adm" true = Some (legacy_scope two_entry_world) /\
  ~ In Throws (snd (skip_to_next_video cfg_single two_entry_world "adm" 9)).
Proof.
  split; [reflexivity|].
  destruct (proj2 (skip_to_next_video_wraps cfg_single two_entry_world "adm"
                     (legacy_scope two_entry_world) 9 eq_refl)
              ltac:(discriminate) ltac:(unfold len_z; simpl; lia))
    as [_ [v [_ [_ H]]]].
  exact H.
Defined.

(** Witness of [playlist_reorder_follows]: moving entry 0 to position 7 of
    a 2-entry playlist changes nothing. *)
Lemma playlist_reorder_follows_witness :
  resolve cfg_single two_entry_world "adm" true = Some (legacy_scope two_entry_world) /\
  playlist_reorder cfg_single two_entry_world "adm" 0 7 = (two_entry_world, []).
Proof.
  split; [reflexivity|].
  exact (proj2 (playlist_reorder_follows cfg_single two_entry_world "adm"
                  (legacy_scope two_entry_world) 0 7 eq_refl)
               ltac:(right; right; right; unfold len_z; simpl; lia)).
Defined.

(** Witness of [validateFilename_accepts_plain_names]: [movie.mkv]. *)
Lemma validateFilename_accepts_plain_names_witness :
  validateFilename "movie.mkv" = true /\ basename "movie.mkv" = "movie.mkv".
Proof.
  split; [reflexivity|].
  exact (proj2 (proj2 (proj2 (proj2 (proj2 (proj2
           (validateFilename_accepts_plain_names "movie.mkv" eq_refl))))))).
Defined.

(** Witness of [chat_message_escaped]: viewer [v1] of the single-room
    world sends [<b>hi</b>] as [Bob]. *)
Lemma chat_message_escaped_witness :
  In (ChatEmit ToAll "Bob" "&lt;b&gt;hi&lt;/b&gt;" false)
     (snd (chat_message cfg_single true two_entry_world [] "v1" (Some "<b>hi</b>") (Some "Bob"))) /\
  ~ In "<"%char (list_ascii_of_string "&lt;b&gt;hi&lt;/b&gt;").
Proof.
  assert (Hin : In (ChatEmit ToAll "Bob" "&lt;b&gt;hi&lt;/b&gt;" false)
     (snd (chat_message cfg_single true two_entry_world [] "v1" (Some "<b>hi</b>") (Some "Bob"))))
    by (vm_compute; left; reflexivity).
  split; [exact Hin|].
  exact (proj2 (chat_message_escaped cfg_single true two_entry_world [] "v1" (Some "<b>hi</b>")
                  (Some "Bob") ToAll "Bob" "&lt;b&gt;hi&lt;/b&gt;" false Hin "<"%char
                  ltac:(simpl; tauto))).
Defined.

(** Witness of [chat_message_rename]: viewer [v1] (fingerprint [fpV]) of
    the single-room world renames itself with [/rename Bob]. *)
Lemma chat_message_rename_witness :
  startsWith (toLowerCase (trim "/rename Bob")) "/rename " = true /\
  (forall t s m, ~ In (ChatEmit t s m false)
     (snd (chat_message cfg_single true two_entry_world [] "v1" (Some "/rename Bob") None))).
Proof.
  split; [reflexivity|].
  pose proof (chat_message_rename cfg_single true two_entry_world [] "v1" "/rename Bob" None
                eq_refl) as H.
  destruct (chat_message cfg_single true two_entry_world [] "v1" (Some "/rename Bob") None)
    as [names' outs].
  exact (proj1 H).
Defined.

(** ** [track-change] *)

Lemma playlist_jump_in_range cfg w sid sc index now v :
  resolve cfg w sid true = Some sc ->
  0 <= index < len_z (videos (sc_playlist sc)) ->
  nth_z index (videos (sc_playlist sc)) = Some v ->
  resolve cfg (fst (playlist_jump cfg w sid index now)) sid true
  = Some (with_pl_st sc (set_currentIndex (sc_playlist sc) index)
            (mkVideoState (isPlaying (sc_state sc)) 0 now (entry_audio v) (entry_subtitle v))).
Proof.
  intros Hres Hi Ev. unfold playlist_jump, run. rewrite Hres.
  unfold playlist_jump_body, validatePlaylistIndex.
  assert (E : ((0 <=? index) && (index <? len_z (videos (sc_playlist sc)))) = true)
    by (apply andb_true_iff; split; [apply Z.leb_le | apply Z.ltb_lt]; lia).
  rewrite E, Ev. simpl. apply resolve_commit; exact Hres.
Qed.

Lemma len_z_replace_nth {A} n (x : A) l : len_z (replace_nth n x l) = len_z l.
Proof. unfold len_z. now rewrite replace_nth_length. Qed.

Lemma nth_z_replace_nth_same {A} i (x : A) l :
  0 <= i < len_z l -> nth_z i (replace_nth (Z.to_nat i) x l) = Some x.
Proof.
  intros H. rewrite nth_z_nat by lia. apply nth_error_replace_nth_same.
  unfold len_z in H. lia.
Qed.

(** The chosen entry after a valid [track-change]. *)
Lemma track_change_valid cfg w sid sc i ty k now :
  resolve cfg w sid true = Some sc ->
  0 <= i < len_z (videos (sc_playlist sc)) ->
  (ty = "audio" \/ ty = "subtitle") -> -1 <= k ->
  exists v,
    nth_z i (videos (sc_playlist sc)) = Some v /\
    let p' := set_videos (sc_playlist sc)
                (replace_nth (Z.to_nat i) (track_set ty v k) (videos (sc_playlist sc))) in
    let st := sc_state sc in
    let st' := if i =? currentIndex (sc_playlist sc)
               then set_lastUpdate (if String.eqb ty "audio" then set_tracks st k (subtitleTrack st)
                                    else set_tracks st (audioTrack st) k) now
               else st in
    track_change cfg w sid i ty k now
    = (commit w (with_pl_st sc p' st'),
       (if i =? currentIndex (sc_playlist sc) then [Emit (fanout sc) "sync" (PSync st')] else [])
       ++ [Emit (fanout sc) "track-change" PStatus]).
Proof.
  intros Hres Hi Hty Hk. destruct (nth_z_in_range _ _ Hi) as [v Ev]. exists v. split; [exact Ev|].
  unfold track_change, run. rewrite Hres. unfold track_change_body, validateTrackIndex.
  assert (E1 : (i <? 0) = false) by (apply Z.ltb_ge; lia).
  assert (E2 : (String.eqb ty "audio" || String.eqb ty "subtitle") = true)
    by (destruct Hty; subst; reflexivity).
  assert (E3 : (-1 <=? k) = true) by (apply Z.leb_le; lia).
  assert (E4 : (i <? len_z (videos (sc_playlist sc))) = true) by (apply Z.ltb_lt; lia).
  rewrite E1, E2, E3, E4, Ev. simpl. unfold track_set.
  destruct (i =? currentIndex (sc_playlist sc)); reflexivity.
Qed.

(** [track-change] from the admin with [0 <= videoIndex < len],
    [type] [audio] or [subtitle] and [trackIndex >= -1] stores the track on
    that entry, keeps the playlist length and the current index, and
    touches the live playback state (with a [sync] broadcast) exactly when
    the entry is the current one; any other request changes nothing and
    sends nothing. *)
Theorem track_change_current_entry cfg w sid sc i ty k now
    (Hres : resolve cfg w sid true = Some sc) :
  let p := sc_playlist sc in
  let st := sc_state sc in
  ((0 <= i < len_z (videos p)) -> (ty = "audio" \/ ty = "subtitle") -> -1 <= k ->
   exists sc1,
     resolve cfg (fst (track_change cfg w sid i ty k now)) sid true = Some sc1 /\
     len_z (videos (sc_playlist sc1)) = len_z (videos p) /\
     currentIndex (sc_playlist sc1) = currentIndex p /\
     (exists v', nth_z i (videos (sc_playlist sc1)) = Some v' /\
        (if String.eqb ty "audio" then selectedAudioTrack v' else selectedSubtitleTrack v') = Some k) /\
     (i = currentIndex p ->
        sc_state sc1 = set_lastUpdate (if String.eqb ty "audio" then set_tracks st k (subtitleTrack st)
                                       else set_tracks st (audioTrack st) k) now /\
        In (Emit (fanout sc) "sync" (PSync (sc_state sc1))) (snd (track_change cfg w sid i ty k now))) /\
     (i <> currentIndex p ->
        sc_state sc1 = st /\
        forall x, ~ In (Emit (fanout sc) "sync" x) (snd (track_change cfg w sid i ty k now)))) /\
  ((i < 0 \/ len_z (videos p) <= i \/ (ty <> "audio" /\ ty <> "subtitle") \/ k < -1) ->
   track_change cfg w sid i ty k now = (w, [])).
Proof.
  intros p st. split.
  - intros Hi Hty Hk.
    destruct (track_change_valid cfg w sid sc i ty k now Hres Hi Hty Hk) as [v [Ev Htc]].
    cbv zeta in Htc. rewrite Htc. simpl fst. simpl snd.
    eexists. split; [apply resolve_commit; exact Hres|]. simpl.
    split; [apply len_z_replace_nth|]. split; [reflexivity|].
    split.
    { exists (track_set ty v k). split; [apply nth_z_replace_nth_same; exact Hi|].
      unfold track_set. destruct Hty; subst; reflexivity. }
    split.
    + intros Heq. assert (E : (i =? currentIndex (sc_playlist sc)) = true) by (apply Z.eqb_eq; exact Heq).
      rewrite E. split; [reflexivity|]. simpl. tauto.
    + intros Hne. assert (E : (i =? currentIndex (sc_playlist sc)) = false) by (apply Z.eqb_neq; exact Hne).
      rewrite E. split; [reflexivity|].
      simpl. intros x [H|H]; [discriminate|exact H].
  - intros Hbad. unfold track_change, run. rewrite Hres. unfold track_change_body, validateTrackIndex.
    destruct (i <? 0) eqn:E1; [simpl; now rewrite (commit_resolved cfg w sid true sc Hres)|].
    destruct (String.eqb ty "audio" || String.eqb ty "subtitle") eqn:E2;
      [|simpl; now rewrite (commit_resolved cfg w sid true sc Hres)].
    destruct (-1 <=? k) eqn:E3; [|simpl; now rewrite (commit_resolved cfg w sid true sc Hres)].
    destruct (i <? len_z (videos (sc_playlist sc))) eqn:E4;
      [|simpl; now rewrite (commit_resolved cfg w sid true sc Hres)].
    exfalso. apply Z.ltb_ge in E1. apply Z.leb_le in E3. apply Z.ltb_lt in E4.
    apply orb_true_iff in E2. rewrite !String.eqb_eq in E2.
    fold p in E4. destruct Hbad as [H|[H|[[Ha Hs]|H]]]; try lia.
    destruct E2; contradiction.
Qed.

(** A track chosen with [track-change] for an entry is applied when that
    entry is next started with [playlist-jump]: the jump makes it current,
    restarts at 0 and selects the stored track. *)
Theorem track_change_then_jump cfg w sid sc i ty k now1 now2
    (Hres : resolve cfg w sid true = Some sc)
    (Hi : 0 <= i < len_z (videos (sc_playlist sc)))
    (Hty : ty = "audio" \/ ty = "subtitle") (Hk : -1 <= k) :
  exists sc2,
    resolve cfg (fst (playlist_jump cfg (fst (track_change cfg w sid i ty k now1)) sid i now2)) sid true
    = Some sc2 /\
    currentIndex (sc_playlist sc2) = i /\ currentTime (sc_state sc2) = 0 /\
    (if String.eqb ty "audio" then audioTrack (sc_state sc2) else subtitleTrack (sc_state sc2)) = k.
Proof.
  destruct (track_change_valid cfg w sid sc i ty k now1 Hres Hi Hty Hk) as [v [Ev Htc]].
  cbv zeta in Htc. rewrite Htc. simpl fst.
  set (p' := set_videos (sc_playlist sc)
               (replace_nth (Z.to_nat i) (track_set ty v k) (videos (sc_playlist sc)))).
  set (st' := if i =? currentIndex (sc_playlist sc) then _ else _).
  assert (Hr1 : resolve cfg (commit w (with_pl_st sc p' st')) sid true = Some (with_pl_st sc p' st'))
    by (apply resolve_commit; exact Hres).
  assert (Hi' : 0 <= i < len_z (videos (sc_playlist (with_pl_st sc p' st')))).
  { simpl. unfold p'. simpl. rewrite len_z_replace_nth. exact Hi. }
  assert (Ev' : nth_z i (videos (sc_playlist (with_pl_st sc p' st'))) = Some (track_set ty v k)).
  { simpl. unfold p'. simpl. apply nth_z_replace_nth_same. exact Hi. }
  rewrite (playlist_jump_in_range cfg _ sid _ i now2 _ Hr1 Hi' Ev').
  eexists. split; [reflexivity|]. simpl. split; [reflexivity|]. split; [reflexivity|].
  unfold track_set, entry_audio, entry_subtitle. destruct Hty; subst; reflexivity.
Qed.

(** ** [control] *)

Lemma control_body_run cfg w sid sc skip d now st' :
  resolve cfg w sid false = Some sc ->
  control_apply skip d (sc_state sc) now = Some st' ->
  run cfg w sid false (control_body skip d now)
  = (commit w (with_pl_st sc (sc_playlist sc) st'), [Emit (fanout sc) "sync" (PSync st')]).
Proof.
  intros Hres Ha. unfold run. rewrite Hres. unfold control_body. rewrite Ha. reflexivity.
Qed.

(** A [skip] control event accepted from a client (controls enabled)
    moves the playback position by [+/- (data.seconds || SKIP_SECONDS)]
    (forward for [direction = 'forward'], backward otherwise), sets
    [lastUpdate = now] and broadcasts [sync]; the position is not clamped,
    neither at 0 nor at the video's length. *)
Theorem control_skip_unclamped cfg cc skip w sid sc dir secs ct now
    (Hres : resolve cfg w sid false = Some sc)
    (Hen : CLIENT_CONTROLS_DISABLED cc = false)
    (Hct : match ct with Some t => 0 <= t | None => True end) :
  let st := sc_state sc in
  let st' := mkVideoState (isPlaying st)
               (currentTime st + (if String.eqb dir "forward" then 1 else -1) * or_num secs skip)
               now (audioTrack st) (subtitleTrack st) in
  resolve cfg (fst (control cfg cc skip w sid (CAction (Skip dir secs) ct) now)) sid false
  = Some (with_pl_st sc (sc_playlist sc) st') /\
  snd (control cfg cc skip w sid (CAction (Skip dir secs) ct) now) = [Emit (fanout sc) "sync" (PSync st')].
Proof.
  intros st st'.
  assert (Hv : control_valid (CAction (Skip dir secs) ct) = true).
  { simpl. destruct ct as [t|]; [apply andb_true_iff; split; [apply Z.leb_le; exact Hct|reflexivity]|reflexivity]. }
  assert (Ha : control_apply skip (CAction (Skip dir secs) ct) (sc_state sc) now = Some st') by reflexivity.
  unfold control. rewrite Hv, Hen. simpl negb. cbv iota.
  destruct (SERVER_MODE cfg); simpl andb; cbv iota.
  - unfold run. rewrite Hres. simpl andb. cbv iota. unfold control_body. rewrite Ha. simpl.
    split; [apply resolve_commit; exact Hres | reflexivity].
  - destruct (CLIENT_SYNC_DISABLED cc); simpl;
      rewrite (control_body_run cfg w sid sc skip _ now st' Hres Ha); simpl;
      (split; [apply resolve_commit; exact Hres | reflexivity]).
Qed.

(** With [client_controls_disabled], a [control] event from a socket that
    is not the admin (the room's [adminSocketId] in server mode, a
    verified admin socket in single-room mode) changes nothing; in
    single-room mode the sender gets [control-rejected] (when the event
    passed validation), in server mode nothing is sent. *)
Theorem control_disabled_rejects cfg cc skip w sid d now
    (Hdis : CLIENT_CONTROLS_DISABLED cc = true)
    (Hnot : if SERVER_MODE cfg
            then forall sc, resolve cfg w sid false = Some sc -> is_sid (sc_admin sc) sid = false
            else existsb (String.eqb sid) (verifiedAdminSockets w) = false) :
  control cfg cc skip w sid d now
  = (w, if SERVER_MODE cfg || negb (control_valid d) then []
        else [Emit (ToSocket sid) "control-rejected" PStatus]).
Proof.
  unfold control. destruct (control_valid d); simpl negb; cbv iota.
  - rewrite Hdis. destruct (SERVER_MODE cfg); simpl.
    + unfold run. destruct (resolve cfg w sid false) as [sc|] eqn:Hres; [|reflexivity].
      rewrite (Hnot sc eq_refl). simpl. now rewrite (commit_resolved cfg w sid false sc Hres).
    + rewrite Hnot. reflexivity.
  - rewrite orb_true_r. reflexivity.
Qed.

(** A direct sync from a client (no [action]; controls enabled) replaces
    the playback state by the client's [isPlaying] and [currentTime]
    (keeping the tracks) and broadcasts [sync]; [client_sync_disabled]
    blocks it in single-room mode only: in server mode the flag is not
    consulted. *)
Theorem control_direct_sync cfg cc skip w sid sc b t now
    (Hres : resolve cfg w sid false = Some sc)
    (Ht : 0 <= t)
    (Hen : CLIENT_CONTROLS_DISABLED cc = false) :
  let st' := mkVideoState b t now (audioTrack (sc_state sc)) (subtitleTrack (sc_state sc)) in
  ((SERVER_MODE cfg = true \/ CLIENT_SYNC_DISABLED cc = false) ->
     resolve cfg (fst (control cfg cc skip w sid (CDirectSync b t) now)) sid false
     = Some (with_pl_st sc (sc_playlist sc) st') /\
     snd (control cfg cc skip w sid (CDirectSync b t) now) = [Emit (fanout sc) "sync" (PSync st')]) /\
  (SERVER_MODE cfg = false -> CLIENT_SYNC_DISABLED cc = true ->
     control cfg cc skip w sid (CDirectSync b t) now = (w, [])).
Proof.
  intros st'.
  assert (Hv : control_valid (CDirectSync b t) = true) by (apply Z.leb_le; exact Ht).
  assert (Ha : control_apply skip (CDirectSync b t) (sc_state sc) now = Some st') by reflexivity.
  unfold control. rewrite Hv, Hen. simpl negb. cbv iota. split.
  - intros Hm. destruct (SERVER_MODE cfg) eqn:Hs; simpl andb; cbv iota.
    + unfold run. rewrite Hres. simpl andb. cbv iota. unfold control_body. rewrite Ha. simpl.
      split; [apply resolve_commit; exact Hres | reflexivity].
    + destruct Hm as [Hm|Hm]; [discriminate|]. rewrite Hm. simpl.
      rewrite (control_body_run cfg w sid sc skip _ now st' Hres Ha). simpl.
      split; [apply resolve_commit; exact Hres | reflexivity].
  - intros Hs Hsd. rewrite Hs, Hsd. reflexivity.
Qed.

(** ** Room membership *)

Lemma JsMap_get_set_other {V} (k k' : string) (v : V) m :
  k <> k' -> JsMap.get k' (JsMap.set k v m) = JsMap.get k' m.
Proof.
  intros Hne. induction m as [|[k0 v0] r IH]; simpl.
  - destruct (String.eqb_spec k' k); [congruence | reflexivity].
  - destruct (String.eqb_spec k k0) as [->|Hk]; simpl.
    + destruct (String.eqb_spec k' k0); [congruence | reflexivity].
    + destruct (String.eqb k' k0); [reflexivity | exact IH].
Qed.

Lemma JsMap_get_delete_same {V} (k : string) (m : list (string * V)) :
  JsMap.get k (JsMap.delete k m) = None.
Proof.
  induction m as [|[k0 v0] r IH]; simpl; [reflexivity|].
  destruct (String.eqb k k0) eqn:E; [exact IH|]. simpl. rewrite E. exact IH.
Qed.

Lemma JsMap_get_delete_other {V} (k k' : string) (m : list (string * V)) :
  k <> k' -> JsMap.get k' (JsMap.delete k m) = JsMap.get k' m.
Proof.
  intros Hne. induction m as [|[k0 v0] r IH]; simpl; [reflexivity|].
  destruct (String.eqb_spec k k0) as [->|Hk]; simpl.
  - destruct (String.eqb_spec k' k0); [congruence | exact IH].
  - destruct (String.eqb k' k0); [reflexivity | exact IH].
Qed.

Lemma ascii_upper_idem c : ascii_upper (ascii_upper c) = ascii_upper c.
Proof. destruct c as [[] [] [] [] [] [] [] []]; reflexivity. Qed.

Lemma toUpperCase_idem s : toUpperCase (toUpperCase s) = toUpperCase s.
Proof.
  induction s as [|c r IH]; [reflexivity|].
  unfold toUpperCase in *. simpl. now rewrite ascii_upper_idem, IH.
Qed.

Lemma room_code_chars_upper s :
  (forall ch, In ch (list_ascii_of_string s) -> In ch (list_ascii_of_string room_code_chars)) ->
  toUpperCase s = s.
Proof.
  induction s as [|c r IH]; intros H; [reflexivity|].
  unfold toUpperCase in *. simpl. rewrite IH by (intros ch Hch; apply H; simpl; auto).
  assert (Hc : In c (list_ascii_of_string room_code_chars)) by (apply H; simpl; auto).
  simpl in Hc. repeat (destruct Hc as [Hc|Hc]; [subst c; reflexivity|]). contradiction.
Qed.

Lemma is_sid_true o s : is_sid o s = true <-> o = Some s.
Proof.
  destruct o as [a|]; simpl; [|split; discriminate].
  rewrite String.eqb_eq. split; [intros ->; reflexivity | congruence].
Qed.

Lemma room_isAdmin_spec admins r fp :
  (fst (room_isAdmin admins r fp) = true <->
     adminFingerprint r = fp \/ (fp <> "" /\ JsMap.get (code r) admins = Some fp)) /\
  code (snd (room_isAdmin admins r fp)) = code r /\
  adminSocketId (snd (room_isAdmin admins r fp)) = adminSocketId r /\
  clients (snd (room_isAdmin admins r fp)) = clients r /\
  playlist (snd (room_isAdmin admins r fp)) = playlist r /\
  videoState (snd (room_isAdmin admins r fp)) = videoState r /\
  clientBslStatus (snd (room_isAdmin admins r fp)) = clientBslStatus r.
Proof.
  unfold room_isAdmin. destruct (String.eqb_spec (adminFingerprint r) fp) as [E|E].
  - split; [|repeat split]. simpl. split; [intros _; left; exact E | reflexivity].
  - destruct (JsMap.get (code r) admins) as [p|] eqn:Hp.
    + destruct (String.eqb_spec p "") as [->|Hp0]; simpl.
      * split; [|repeat split]. split; [discriminate|].
        intros [H|[H1 H2]]; [contradiction|]. injection H2 as <-. contradiction.
      * destruct (String.eqb_spec p fp) as [->|Hpf]; simpl.
        -- split; [|repeat split]. split; [intros _; right; split; congruence | reflexivity].
        -- split; [|repeat split]. split; [discriminate|].
           intros [H|[H1 H2]]; [contradiction|]. injection H2 as ->. contradiction.
    + simpl. split; [|repeat split]. split; [discriminate|].
      intros [H|[H1 H2]]; [contradiction|discriminate].
Qed.

(** [join-room] (server mode) for a room found with any spelling of its
    code: the socket is mapped to the room's code and listed as a client
    with its fingerprint, the room's playlist and playback state are kept;
    it takes the admin seat ([adminSocketId]) iff its fingerprint is the
    room's admin fingerprint, in memory or persisted on disk (non-empty),
    and otherwise leaves the seat as it was; the admin gate then lets it
    through iff it took the seat or already held it. *)
Theorem join_room_admin_seat cfg admins w sid roomCode nm fp r
    (Hserver : SERVER_MODE cfg = true)
    (Hr : getRoom roomCode w = Some r)
    (Hcode : code r = toUpperCase roomCode) :
  let w' := fst (join_room admins w sid roomCode nm fp) in
  let claims := adminFingerprint r = fp \/ (fp <> "" /\ JsMap.get (code r) admins = Some fp) in
  JsMap.get sid (socketRoomMap w') = Some (code r) /\
  (exists r', getRoom roomCode w' = Some r' /\
     JsMap.get sid (clients r') = Some (mkClient fp (or_default nm ("Guest-" ++ slice_last4 sid))) /\
     playlist r' = playlist r /\ videoState r' = videoState r /\
     (claims -> adminSocketId r' = Some sid) /\
     (~ claims -> adminSocketId r' = adminSocketId r)) /\
  (isSocketAdmin cfg w' sid = true <-> claims \/ adminSocketId r = Some sid).
Proof.
  intros w' claims. subst claims.
  destruct (room_isAdmin_spec admins r fp) as [Hb [Hc [Ha [Hcl [Hp [Hv Hbs]]]]]].
  unfold w', join_room. rewrite Hr.
  destruct (room_isAdmin admins r fp) as [b r1] eqn:E. simpl fst in Hb. simpl snd in *.
  set (r3 := addClient (if b then set_adminSocketId r1 (Some sid) else r1) sid fp nm).
  assert (Hc3 : code r3 = code r) by (unfold r3; destruct b; exact Hc).
  assert (Ha3 : adminSocketId r3 = if b then Some sid else adminSocketId r)
    by (unfold r3; destruct b; simpl; auto).
  assert (Hg : getRoom roomCode (enter_room (set_room w (toUpperCase roomCode) r3) sid (code r3)) = Some r3)
    by (unfold getRoom; simpl; apply JsMap_get_set_same).
  simpl fst. change (code (if b then set_adminSocketId r1 (Some sid) else r1)) with (code r3).
  assert (Hcl3 : JsMap.get sid (clients r3) = Some (mkClient fp (or_default nm ("Guest-" ++ slice_last4 sid))))
    by (unfold r3; simpl; apply JsMap_get_set_same).
  assert (Hp3 : playlist r3 = playlist r) by (unfold r3; destruct b; simpl; auto).
  assert (Hv3 : videoState r3 = videoState r) by (unfold r3; destruct b; simpl; auto).
  clearbody r3.
  split; [|split].
  - simpl. rewrite JsMap_get_set_same. now rewrite Hc3.
  - exists r3. split; [exact Hg|]. split; [exact Hcl3|]. split; [exact Hp3|]. split; [exact Hv3|].
    split.
    + intros Hcl'. rewrite Ha3. apply Hb in Hcl'. now rewrite Hcl'.
    + intros Hn. rewrite Ha3. destruct b; [exfalso; apply Hn, Hb; reflexivity | reflexivity].
  - unfold isSocketAdmin. rewrite Hserver. simpl. rewrite JsMap_get_set_same. rewrite Hc3.
    assert (Hg' : getRoom (code r)
                    (enter_room (set_room w (toUpperCase roomCode) r3) sid (code r3)) = Some r3)
      by (unfold getRoom; rewrite Hcode, toUpperCase_idem; simpl; apply JsMap_get_set_same).
    rewrite Hc3 in Hg'. rewrite Hg', Ha3. rewrite <- Hb.
    destruct b; simpl.
    + rewrite String.eqb_refl. tauto.
    + rewrite is_sid_true. split; [tauto|]. intros [H|H]; [discriminate|exact H].
Qed.

(** [create-room] (server mode) with a code drawn from the alphabet of
    [generateRoomCode]: the room is registered under that code (and found
    by [getRoom] with any spelling that upper-cases to it), the creator's
    fingerprint is its admin fingerprint, the creator holds the admin seat,
    is its only client (named [Admin]), the playlist is empty, and the admin
    gate lets the creator through. *)
Theorem create_room_admin cfg w sid c nm fp now
    (Hserver : SERVER_MODE cfg = true)
    (Hc : forall ch, In ch (list_ascii_of_string c) -> In ch (list_ascii_of_string room_code_chars)) :
  let w' := fst (create_room w sid c nm fp now) in
  isSocketAdmin cfg w' sid = true /\
  exists r, (forall c', toUpperCase c' = c -> getRoom c' w' = Some r) /\
    code r = c /\ roomName r = or_default nm "Watch Party" /\ adminFingerprint r = fp /\
    adminSocketId r = Some sid /\ clients r = [(sid, mkClient fp "Admin")] /\
    videos (playlist r) = [] /\ currentIndex (playlist r) = -1.
Proof.
  intros w'. pose proof (room_code_chars_upper c Hc) as Hup.
  set (r1 := addClient (set_adminSocketId (new_room c (or_default nm "Watch Party") fp now) (Some sid))
               sid fp (Some "Admin")).
  assert (Hg : forall c', toUpperCase c' = c -> getRoom c' w' = Some r1).
  { intros c' Hc'. unfold getRoom, w', create_room. simpl. rewrite Hc'. apply JsMap_get_set_same. }
  split.
  - unfold isSocketAdmin. rewrite Hserver. unfold w', create_room. simpl.
    rewrite JsMap_get_set_same. fold (create_room w sid c nm fp now).
    change (set_room w c r1) with (set_room w c r1).
    assert (Hg2 : getRoom c (fst (create_room w sid c nm fp now)) = Some r1) by (apply Hg; exact Hup).
    unfold w' in Hg2. unfold create_room in Hg2. simpl in Hg2. rewrite Hg2.
    simpl. apply String.eqb_refl.
  - exists r1. split; [exact Hg|]. simpl. repeat split; reflexivity.
Qed.

Lemma leave_removes_channel s ch ss chs :
  In (s, chs) (leave s ch ss) -> ~ In ch chs.
Proof.
  unfold leave. intros H. apply in_map_iff in H as [[s' chs'] [E _]].
  destruct (String.eqb_spec s' s); injection E as <- <-; [|congruence].
  intros Hin. apply filter_In in Hin as [_ Hf]. rewrite String.eqb_refl in Hf. discriminate.
Qed.

Lemma has_drop_socket w sid : JsMap.has sid (sockets (drop_socket w sid)) = false.
Proof.
  unfold JsMap.has, drop_socket; simpl. induction (sockets w) as [|[s chs] r IH]; simpl; [reflexivity|].
  destruct (String.eqb_spec s sid) as [->|Hs]; simpl; [exact IH|].
  destruct (String.eqb_spec sid s); [congruence | exact IH].
Qed.

(** [leave-room] (server mode) from a member of a room: the socket's
    room mapping is removed, it leaves the room's channel, it is removed
    from the room's clients and BSL statuses, and the admin gate no longer
    lets it through; the room keeps its admin seat ([adminSocketId],
    possibly naming the socket that left), admin fingerprint, playlist and
    playback state. *)
Theorem leave_room_keeps_admin_seat cfg w sid rc r
    (Hserver : SERVER_MODE cfg = true)
    (Hs : JsMap.get sid (socketRoomMap w) = Some rc)
    (Hr : getRoom rc w = Some r) :
  let w' := fst (leave_room w sid) in
  JsMap.get sid (socketRoomMap w') = None /\
  isSocketAdmin cfg w' sid = false /\
  (forall chs, In (sid, chs) (sockets w') -> ~ In rc chs) /\
  exists r', getRoom rc w' = Some r' /\
    JsMap.get sid (clients r') = None /\ JsMap.get sid (clientBslStatus r') = None /\
    adminSocketId r' = adminSocketId r /\ adminFingerprint r' = adminFingerprint r /\
    playlist r' = playlist r /\ videoState r' = videoState r.
Proof.
  intros w'. unfold w', leave_room. rewrite Hs, Hr. simpl.
  split; [apply JsMap_get_delete_same|]. split.
  - unfold isSocketAdmin. rewrite Hserver. simpl. now rewrite JsMap_get_delete_same.
  - split; [intros chs; apply leave_removes_channel|].
    exists (removeClient r sid). split.
    + unfold getRoom; simpl. apply JsMap_get_set_same.
    + simpl. rewrite !JsMap_get_delete_same. repeat split.
Qed.

(** A connection closing in server mode: the socket is gone from socket.io
    and from [socketRoomMap], and removed from its room's clients and BSL
    statuses (the second, shared [disconnect] listener then finds no room
    and does nothing); the room keeps its admin seat, admin fingerprint,
    playlist and playback state, and no socket passes the admin gate
    afterwards that did not pass it before. *)
Theorem disconnect_server_keeps_admin_seat cfg w sid rc r
    (Hserver : SERVER_MODE cfg = true)
    (Hs : JsMap.get sid (socketRoomMap w) = Some rc)
    (Hr : getRoom rc w = Some r) :
  let w' := fst (disconnect cfg w sid) in
  JsMap.get sid (socketRoomMap w') = None /\ JsMap.has sid (sockets w') = false /\
  (exists r', getRoom rc w' = Some r' /\
     JsMap.get sid (clients r') = None /\ JsMap.get sid (clientBslStatus r') = None /\
     adminSocketId r' = adminSocketId r /\ adminFingerprint r' = adminFingerprint r /\
     playlist r' = playlist r /\ videoState r' = videoState r) /\
  (forall s, isSocketAdmin cfg w' s = true -> isSocketAdmin cfg w s = true).
Proof.
  intros w'.
  assert (Hw' : w' = set_socketRoomMap (set_room (drop_socket w sid) (toUpperCase rc) (removeClient r sid))
                       (JsMap.delete sid (socketRoomMap w))).
  { unfold w', disconnect. rewrite Hserver.
    unfold server_disconnect_room. simpl socketRoomMap at 1. rewrite Hs.
    assert (Hr0 : getRoom rc (drop_socket w sid) = Some r) by exact Hr.
    rewrite Hr0. simpl. unfold shared_disconnect. rewrite Hserver. simpl.
    rewrite JsMap_get_delete_same. reflexivity. }
  rewrite Hw'. split; [simpl; apply JsMap_get_delete_same|].
  split; [apply (has_drop_socket w sid)|]. split.
  - exists (removeClient r sid). split.
    + unfold getRoom; simpl. apply JsMap_get_set_same.
    + simpl. rewrite !JsMap_get_delete_same. repeat split.
  - intros s. unfold isSocketAdmin. rewrite Hserver. simpl.
    destruct (String.eqb_spec sid s) as [<-|Hne].
    + rewrite JsMap_get_delete_same. discriminate.
    + rewrite (JsMap_get_delete_other _ _ _ Hne).
      destruct (JsMap.get s (socketRoomMap w)) as [rc2|]; [|discriminate].
      unfold getRoom; simpl.
      destruct (String.eqb_spec (toUpperCase rc) (toUpperCase rc2)) as [E|E].
      * rewrite <- E, JsMap_get_set_same. unfold getRoom in Hr. rewrite Hr. simpl. auto.
      * rewrite (JsMap_get_set_other _ _ _ _ E). auto.
Qed.

(** A connection closing in single-room mode: the socket is no longer a
    verified admin socket nor the admin socket, and has no entry left in
    [connectedClients] or in the BSL statuses; the other verified admin
    sockets, the playlist, the playback state and the registered admin
    fingerprint are kept. *)
Theorem disconnect_legacy_forgets cfg w sid
    (Hlegacy : SERVER_MODE cfg = false) :
  let w' := fst (disconnect cfg w sid) in
  ~ In sid (verifiedAdminSockets w') /\ is_sid (gAdminSocketId w') sid = false /\
  JsMap.get sid (connectedClients w') = None /\ JsMap.get sid (gClientBslStatus w') = None /\
  (forall s, s <> sid -> In s (verifiedAdminSockets w') <-> In s (verifiedAdminSockets w)) /\
  JsMap.has sid (sockets w') = false /\
  PLAYLIST w' = PLAYLIST w /\ gVideoState w' = gVideoState w /\
  registeredAdminFingerprint w' = registeredAdminFingerprint w.
Proof.
  intros w'. unfold w', disconnect. rewrite Hlegacy. simpl. unfold shared_disconnect.
  rewrite Hlegacy. simpl. split; [|split; [|split; [|split; [|split]]]].
  - intros H. apply filter_In in H as [_ H]. rewrite String.eqb_refl in H. discriminate.
  - destruct (is_sid (gAdminSocketId w) sid) eqn:E; [reflexivity|exact E].
  - apply JsMap_get_delete_same.
  - apply JsMap_get_delete_same.
  - intros s Hs. rewrite filter_In. destruct (String.eqb_spec s sid); [contradiction|]. simpl. tauto.
  - split; [apply (has_drop_socket w sid)|]. repeat split.
Qed.

(** ** [bsl-manual-match] and persistent matches *)

Lemma ZMap_get_set {V} (k k' : Z) (x : V) m :
  ZMap.get k (ZMap.set k' x m) = if k =? k' then Some x else ZMap.get k m.
Proof.
  induction m as [|[k0 v0] r IH]; simpl.
  - reflexivity.
  - destruct (Z.eqb_spec k' k0) as [->|Hk]; simpl.
    + destruct (k =? k0); reflexivity.
    + destruct (Z.eqb_spec k k0) as [->|Hk0].
      * destruct (Z.eqb_spec k0 k'); [congruence|reflexivity].
      * exact IH.
Qed.

Lemma fold_mark_keep (f : Video -> bool) (nm : string) k vs :
  forall j (acc : list (Z * string)), ZMap.get k acc <> None ->
  ZMap.get k (snd (fold_left (fun '(i, m) v => (i + 1, if f v then ZMap.set i nm m else m)) vs (j, acc)))
  <> None.
Proof.
  induction vs as [|v r IH]; intros j acc H; simpl; [exact H|].
  apply IH. destruct (f v); [|exact H].
  rewrite ZMap_get_set. destruct (k =? j); [discriminate|exact H].
Qed.

Lemma fold_mark_hit (f : Video -> bool) (nm : string) vs :
  forall n v j (acc : list (Z * string)), nth_error vs n = Some v -> f v = true ->
  ZMap.get (j + Z.of_nat n)
    (snd (fold_left (fun '(i, m) v => (i + 1, if f v then ZMap.set i nm m else m)) vs (j, acc)))
  <> None.
Proof.
  induction vs as [|v0 r IH]; intros n v j acc Hn Hf; [destruct n; discriminate|].
  destruct n as [|n]; simpl in Hn.
  - injection Hn as <-. simpl. rewrite Hf. apply fold_mark_keep.
    rewrite ZMap_get_set, Z.add_0_r, Z.eqb_refl. discriminate.
  - rewrite Nat2Z.inj_succ, <- Z.add_1_l, Z.add_assoc. cbn [fold_left].
    exact (IH n v (j + 1) _ Hn Hf).
Qed.

Lemma match_files_keep cfg disk cm vs k :
  forall fs (acc : list (Z * string)), ZMap.get k acc <> None ->
  ZMap.get k (fold_left
    (fun acc cf =>
       snd (fold_left
              (fun '(i, m) v =>
                 (i + 1, if pair_matches cfg disk cm cf v then ZMap.set i (name cf) m else m))
              vs (0, acc))) fs acc) <> None.
Proof.
  induction fs as [|cf r IH]; intros acc H; simpl; [exact H|].
  apply IH. apply (fold_mark_keep (pair_matches cfg disk cm cf)). exact H.
Qed.

Lemma match_files_hit cfg disk cm fs vs cf i v :
  In cf fs -> nth_z i vs = Some v -> pair_matches cfg disk cm cf v = true ->
  ZMap.get i (match_files cfg disk cm fs vs) <> None.
Proof.
  intros Hin Hv Hp. unfold match_files. generalize (@nil (Z * string)) as acc.
  assert (Hi : 0 <= i) by (unfold nth_z in Hv; destruct (Z.ltb_spec i 0); [discriminate|lia]).
  rewrite nth_z_nat in Hv by exact Hi.
  induction fs as [|cf0 r IH]; [contradiction|]. intros acc. simpl.
  destruct Hin as [->|Hin].
  - apply match_files_keep.
    pose proof (fold_mark_hit (pair_matches cfg disk cm cf) (name cf) vs (Z.to_nat i) v 0 acc Hv Hp) as H.
    rewrite Z2Nat.id in H by exact Hi. exact H.
  - apply IH. exact Hin.
Qed.

Lemma pair_matches_persistent cfg disk cm cf v :
  JsMap.get (toLowerCase (name cf)) cm = Some (toLowerCase (filename v)) ->
  pair_matches cfg disk cm cf v = true.
Proof. intros H. unfold pair_matches. rewrite H, String.eqb_refl. reflexivity. Qed.

Lemma folder_selected_persistent_hit cfg disk w sid sc cidf nmf fs cf i v m :
  resolve cfg w sid false = Some sc ->
  JsMap.get (or_default cidf sid) (persistentBslMatches w) = Some m ->
  In cf fs -> nth_z i (videos (sc_playlist sc)) = Some v ->
  JsMap.get (toLowerCase (name cf)) m = Some (toLowerCase (filename v)) ->
  exists sc' st,
    resolve cfg (fst (bsl_folder_selected cfg disk w sid cidf nmf fs)) sid false = Some sc' /\
    JsMap.get sid (sc_bsl sc') = Some st /\ ZMap.get i (matchedVideos st) <> None.
Proof.
  intros Hres Hm Hcf Hv Hpm. unfold bsl_folder_selected, run. rewrite Hres.
  unfold folder_selected_body. rewrite Hm. simpl fst.
  eexists; eexists. split; [unfold with_bsl; apply resolve_commit; exact Hres|].
  simpl. split; [apply JsMap_get_set_same|]. simpl.
  apply (match_files_hit cfg disk m fs _ cf i v Hcf Hv).
  apply pair_matches_persistent. exact Hpm.
Qed.

(** In [bsl-folder-selected], a reported file whose lower-cased name is
    recorded in [persistentBslMatches] (under the reporting client's id) as
    matching the lower-cased file name of playlist entry [i] makes entry
    [i] matched in the client's stored status, whatever the scoring mode
    and threshold. *)
Theorem bsl_folder_selected_persistent_match cfg disk w sid sc cidf nmf fs cf i v m
    (Hres : resolve cfg w sid false = Some sc)
    (Hm : JsMap.get (or_default cidf sid) (persistentBslMatches w) = Some m)
    (Hcf : In cf fs) (Hv : nth_z i (videos (sc_playlist sc)) = Some v)
    (Hpm : JsMap.get (toLowerCase (name cf)) m = Some (toLowerCase (filename v))) :
  exists sc' st,
    resolve cfg (fst (bsl_folder_selected cfg disk w sid cidf nmf fs)) sid false = Some sc' /\
    JsMap.get sid (sc_bsl sc') = Some st /\ ZMap.get i (matchedVideos st) <> None.
Proof. exact (folder_selected_persistent_hit cfg disk w sid sc cidf nmf fs cf i v m Hres Hm Hcf Hv Hpm). Qed.

Lemma resolve_set_persistent cfg w m sid b :
  resolve cfg (set_persistentBslMatches w m) sid b = resolve cfg w sid b.
Proof. destruct w; reflexivity. Qed.

Lemma setBslMatch_get cid cfn pfn m :
  exists cm, JsMap.get cid (setBslMatch cid cfn pfn m) = Some cm /\ JsMap.get cfn cm = Some pfn.
Proof.
  unfold setBslMatch. eexists. split; [apply JsMap_get_set_same|]. apply JsMap_get_set_same.
Qed.

Lemma manual_match_world cfg w sid sc csid F i cs :
  resolve cfg w sid true = Some sc ->
  JsMap.get csid (sc_bsl sc) = Some cs ->
  let mv := ZMap.set i F (matchedVideos cs) in
  let sc' := with_bsl sc (JsMap.set csid (mkBslStatus (clientId cs) (clientName cs)
                                             (folderSelected cs) (files cs) mv) (sc_bsl sc)) in
  fst (bsl_manual_match cfg w sid csid F i)
  = match nth_z i (videos (sc_playlist sc)) with
    | Some v =>
        if String.eqb (clientId cs) "" then commit w sc'
        else set_persistentBslMatches (commit w sc')
               (setBslMatch (clientId cs) (toLowerCase F) (toLowerCase (filename v))
                  (persistentBslMatches w))
    | None => commit w sc'
    end.
Proof.
  intros Hres Hcs mv sc'. unfold bsl_manual_match. rewrite Hres, Hcs. simpl fst.
  destruct (nth_z i (videos (sc_playlist sc))); [|reflexivity].
  destruct (String.eqb (clientId cs) ""); [reflexivity|]. now rewrite persistent_commit.
Qed.


(** In single-room mode, once the admin has matched file [F] to entry [i]
    for a client with [bsl-manual-match], that client's next
    [bsl-folder-selected] (with its persistent id) reporting a file whose
    name equals [F] up to case marks entry [i] as matched. *)
Theorem bsl_manual_match_then_folder cfg disk w sid csid F i cs v nmf fs cf
    (Hlegacy : SERVER_MODE cfg = false)
    (Hcs : JsMap.get csid (gClientBslStatus w) = Some cs)
    (Hcid : clientId cs <> "")
    (Hv : nth_z i (videos (PLAYLIST w)) = Some v)
    (Hcf : In cf fs) (Hname : toLowerCase (name cf) = toLowerCase F) :
  exists st,
    JsMap.get csid (gClientBslStatus
      (fst (bsl_folder_selected cfg disk (fst (bsl_manual_match cfg w sid csid F i))
              csid (Some (clientId cs)) nmf fs))) = Some st /\
    ZMap.get i (matchedVideos st) <> None.
Proof.
  assert (Hres : resolve cfg w sid true = Some (legacy_scope w)) by (unfold resolve; now rewrite Hlegacy).
  set (w1 := fst (bsl_manual_match cfg w sid csid F i)).
  assert (Hres1 : resolve cfg w1 csid false = Some (legacy_scope w1)) by (unfold resolve; now rewrite Hlegacy).
  assert (Hpl : PLAYLIST w1 = PLAYLIST w).
  { unfold w1. rewrite (manual_match_world cfg w sid (legacy_scope w) csid F i cs Hres Hcs).
    simpl. rewrite Hv. destruct (String.eqb (clientId cs) ""); reflexivity. }
  assert (Hpm : exists m, JsMap.get (clientId cs) (persistentBslMatches w1) = Some m /\
                  JsMap.get (toLowerCase F) m = Some (toLowerCase (filename v))).
  { unfold w1. rewrite (manual_match_world cfg w sid (legacy_scope w) csid F i cs Hres Hcs).
    simpl. rewrite Hv. destruct (String.eqb_spec (clientId cs) ""); [contradiction|].
    apply setBslMatch_get. }
  destruct Hpm as [m [Hm HmF]].
  assert (Hor : or_default (Some (clientId cs)) csid = clientId cs).
  { simpl. destruct (String.eqb_spec (clientId cs) ""); [contradiction|reflexivity]. }
  rewrite <- Hor in Hm.
  destruct (folder_selected_persistent_hit cfg disk w1 csid (legacy_scope w1) (Some (clientId cs)) nmf fs
              cf i v m Hres1 Hm Hcf ltac:(simpl; rewrite Hpl; exact Hv) ltac:(rewrite Hname; exact HmF))
    as [sc' [st [Hr' [Hst Hi]]]].
  exists st. split; [|exact Hi].
  unfold resolve in Hr'. rewrite Hlegacy in Hr'. injection Hr' as <-. exact Hst.
Qed.

(** ** [bsl-check-request], [get-client-list] *)

Lemma JsMap_get_In {V} (k : string) (v : V) m : JsMap.get k m = Some v -> In (k, v) m.
Proof.
  induction m as [|[k' v'] r IH]; simpl; [discriminate|].
  destruct (String.eqb_spec k k') as [->|_]; [intros [= ->]; left; reflexivity|].
  intros H; right; exact (IH H).
Qed.

Lemma JsMap_has_In {V} (k : string) (m : list (string * V)) :
  In k (map fst m) -> JsMap.has k m = true.
Proof.
  unfold JsMap.has. induction m as [|[k' v'] r IH]; simpl; [contradiction|].
  destruct (String.eqb_spec k k') as [->|Hne]; [reflexivity|].
  intros [H|H]; [congruence|exact (IH H)].
Qed.

Lemma JsMap_In_has {V} (k : string) (m : list (string * V)) :
  JsMap.has k m = true -> In k (map fst m).
Proof.
  unfold JsMap.has. destruct (JsMap.get k m) as [v|] eqn:E; [|discriminate].
  intros _. apply (in_map fst _ (k, v)). exact (JsMap_get_In k v m E).
Qed.

(** [bsl-check-request] from the admin changes no state; it prompts
    exactly the connected sockets (in server mode, only the members of
    the admin's room) that are not the admin and have not reported a
    folder, then tells the admin the check started. *)
Theorem bsl_check_request_prompts cfg w sid sc (Hres : resolve cfg w sid true = Some sc) :
  fst (bsl_check_request cfg w sid) = w /\
  exists prompted,
    snd (bsl_check_request cfg w sid)
    = map (fun s => Emit (ToSocket s) "bsl-check-request" PStatus) prompted
      ++ [Emit (ToSocket sid) "bsl-check-started" PCount] /\
    forall s, In s prompted <->
      (JsMap.has s (sockets w) = true /\ is_sid (sc_admin sc) s = false /\
       (forall st, JsMap.get s (sc_bsl sc) = Some st -> folderSelected st = false) /\
       (SERVER_MODE cfg = true ->
          exists rc r, sc_code sc = Some rc /\ getRoom rc w = Some r /\ In s (map fst (clients r)))).
Proof.
  unfold bsl_check_request. rewrite Hres. split; [reflexivity|].
  eexists. split; [reflexivity|]. intros s. rewrite filter_In.
  rewrite !andb_true_iff, !negb_true_iff.
  assert (Hst : (match JsMap.get s (sc_bsl sc) with Some st => folderSelected st | None => false end
                 = false) <-> (forall st, JsMap.get s (sc_bsl sc) = Some st -> folderSelected st = false)).
  { destruct (JsMap.get s (sc_bsl sc)) as [st|].
    - split; [intros H st' [= <-]; exact H | intros H; exact (H st eq_refl)].
    - split; [discriminate|reflexivity]. }
  rewrite Hst. clear Hst.
  unfold resolve in Hres. destruct (SERVER_MODE cfg).
  - destruct (JsMap.get sid (socketRoomMap w)) as [rc|]; [|discriminate].
    destruct (getRoom rc w) as [r|] eqn:Hr; [|discriminate].
    destruct (true && negb (is_sid (adminSocketId r) sid)); [discriminate|].
    injection Hres as <-. cbn [sc_code room_scope sc_admin sc_bsl]. rewrite Hr.
    split.
    + intros [Hin [[Ha Hf] Hh]]. repeat split; try assumption.
      intros _. exists rc, r. repeat split; assumption.
    + intros [Hh [Ha [Hf Hm]]]. destruct (Hm eq_refl) as [rc' [r' [Hc [Hr' Hin]]]].
      injection Hc as <-. rewrite Hr in Hr'. injection Hr' as <-.
      repeat split; assumption.
  - injection Hres as <-. cbn [sc_code legacy_scope].
    split.
    + intros [Hin [[Ha Hf] Hh]]. repeat split; try assumption. discriminate.
    + intros [Hh [Ha [Hf _]]]. repeat split; try assumption. apply JsMap_In_has. exact Hh.
Qed.

Lemma chat_name_updated cfg en w names sid msg sender s newName :
  In (NameUpdated s newName) (snd (chat_message cfg en w names sid msg sender)) ->
  s = sid /\ exists fp, JsMap.get sid (connectedClients w) = Some fp /\
    fst (chat_message cfg en w names sid msg sender) = JsMap.set fp newName names.
Proof.
  unfold chat_message. destruct en; simpl; [|contradiction].
  destruct (if SERVER_MODE cfg then _ else _) as [t|]; [|simpl; contradiction].
  destruct (startsWith _ "/rename "); [|simpl; intros [H|[]]; discriminate].
  destruct (String.eqb _ ""); [simpl; contradiction|].
  destruct (JsMap.get sid (connectedClients w)) as [fp|] eqn:Hfp; [|simpl; contradiction].
  destruct (String.eqb fp ""); [simpl; contradiction|].
  simpl. intros [H|[H|[]]]; [|discriminate].
  injection H as <- <-. split; [reflexivity|]. exists fp. split; [reflexivity|reflexivity].
Qed.

(** Single-room mode: after a chat message that answered [name-updated]
    with a new name to socket [s], an admin's [get-client-list] shows [s]
    with its registered fingerprint and that new name, unless [s] is a
    verified admin socket. *)
Theorem chat_rename_then_client_list cfg en w names sid msg sender asker s newName
    (Hlegacy : SERVER_MODE cfg = false)
    (Hu : In (NameUpdated s newName) (snd (chat_message cfg en w names sid msg sender)))
    (Hnv : existsb (String.eqb s) (verifiedAdminSockets w) = false) :
  exists fp l,
    JsMap.get s (connectedClients w) = Some fp /\
    get_client_list cfg w (fst (chat_message cfg en w names sid msg sender)) asker = Some l /\
    In (s, fp, newName) l.
Proof.
  destruct (chat_name_updated cfg en w names sid msg sender s newName Hu) as [-> [fp [Hfp Hn]]].
  exists fp. eexists. split; [exact Hfp|]. split.
  - unfold get_client_list. rewrite Hlegacy. reflexivity.
  - rewrite Hn. apply in_map_iff. exists (sid, fp). split.
    + rewrite JsMap_get_set_same. reflexivity.
    + apply filter_In. split; [exact (JsMap_get_In _ _ _ Hfp)|]. rewrite Hnv. reflexivity.
Qed.

(** ** Witnesses of the room, control, track and BSL properties *)

(** Witness of [track_change_current_entry]: the admin of the single-room
    world selects audio track 2 on entry 1 (not the playing one). *)
Lemma track_change_current_entry_witness :
  resolve cfg_single two_entry_world "adm" true = Some (legacy_scope two_entry_world) /\
  exists sc1,
    resolve cfg_single (fst (track_change cfg_single two_entry_world "adm" 1 "audio" 2 200)) "adm" true
    = Some sc1 /\ sc_state sc1 = gVideoState two_entry_world /\
    exists v', nth_z 1 (videos (sc_playlist sc1)) = Some v' /\ selectedAudioTrack v' = Some 2.
Proof.
  split; [reflexivity|].
  pose proof (track_change_current_entry cfg_single two_entry_world "adm"
                (legacy_scope two_entry_world) 1 "audio" 2 200 eq_refl) as H.
  cbv zeta in H. destruct H as [H _].
  destruct (H ltac:(split; [lia | vm_compute; reflexivity]) (or_introl eq_refl) ltac:(lia))
    as [sc1 [H1 [_ [_ [[v' [Hn Ha]] [_ Hne]]]]]].
  exists sc1. split; [exact H1|]. split.
  - exact (proj1 (Hne ltac:(discriminate))).
  - exists v'. split; [exact Hn|exact Ha].
Defined.

(** Witness of [track_change_then_jump]: subtitle track 3 on entry 1, then
    a jump to entry 1. *)
Lemma track_change_then_jump_witness :
  resolve cfg_single two_entry_world "adm" true = Some (legacy_scope two_entry_world) /\
  exists sc2,
    resolve cfg_single
      (fst (playlist_jump cfg_single
              (fst (track_change cfg_single two_entry_world "adm" 1 "subtitle" 3 200)) "adm" 1 300))
      "adm" true = Some sc2 /\
    currentIndex (sc_playlist sc2) = 1 /\ subtitleTrack (sc_state sc2) = 3.
Proof.
  split; [reflexivity|].
  destruct (track_change_then_jump cfg_single two_entry_world "adm" (legacy_scope two_entry_world)
              1 "subtitle" 3 200 300 eq_refl ltac:(split; [lia | vm_compute; reflexivity])
              (or_intror eq_refl) ltac:(lia)) as [sc2 [H1 [H2 [_ H4]]]].
  exists sc2. split; [exact H1|]. split; [exact H2|exact H4].
Defined.

(** Witness of [control_skip_unclamped]: viewer [v1] skips back 40 s from
    30 s; the broadcast time is -10. *)
Lemma control_skip_unclamped_witness :
  resolve cfg_single two_entry_world "v1" false = Some (legacy_scope two_entry_world) /\
  snd (control cfg_single (mkControlConfig false false) 10 two_entry_world "v1"
         (CAction (Skip "back" (Some 40)) None) 200)
  = [Emit ToAll "sync" (PSync (mkVideoState true (-10) 200 0 (-1)))].
Proof.
  split; [reflexivity|].
  exact (proj2 (control_skip_unclamped cfg_single (mkControlConfig false false) 10 two_entry_world
                  "v1" (legacy_scope two_entry_world) "back" (Some 40) None 200 eq_refl eq_refl I)).
Defined.

(** Witness of [control_disabled_rejects]: controls disabled, viewer [v1]
    (not verified) sends a play/pause. *)
Lemma control_disabled_rejects_witness :
  existsb (String.eqb "v1") (verifiedAdminSockets two_entry_world) = false /\
  control cfg_single (mkControlConfig true false) 10 two_entry_world "v1"
    (CAction (PlayPause false) None) 200
  = (two_entry_world, [Emit (ToSocket "v1") "control-rejected" PStatus]).
Proof.
  split; [reflexivity|].
  exact (control_disabled_rejects cfg_single (mkControlConfig true false) 10 two_entry_world "v1"
           (CAction (PlayPause false) None) 200 eq_refl eq_refl).
Defined.

(** Witness of [control_direct_sync]: in server mode viewer [s2] sends a
    direct sync to 50 s, paused, although client syncs are disabled. *)
Lemma control_direct_sync_witness :
  resolve cfg_server server_world "s2" false = Some (room_scope "ABC234" room_ABC234) /\
  snd (control cfg_server (mkControlConfig false true) 10 server_world "s2" (CDirectSync false 50) 7)
  = [Emit (ToChannel "ABC234") "sync" (PSync (mkVideoState false 50 7 0 (-1)))].
Proof.
  split; [reflexivity|].
  pose proof (control_direct_sync cfg_server (mkControlConfig false true) 10 server_world "s2"
                (room_scope "ABC234" room_ABC234) false 50 7 eq_refl ltac:(lia) eq_refl) as H.
  cbv zeta in H. exact (proj2 (proj1 H (or_introl eq_refl))).
Defined.

(** Witness of [join_room_admin_seat]: a new socket [s3] with the admin
    fingerprint [fpA] joins room [abc234] (lower case) and takes the admin
    seat. *)
Lemma join_room_admin_seat_witness :
  getRoom "abc234" server_world = Some room_ABC234 /\
  isSocketAdmin cfg_server (fst (join_room [] server_world "s3" "abc234" None "fpA")) "s3" = true.
Proof.
  split; [reflexivity|].
  pose proof (join_room_admin_seat cfg_server [] server_world "s3" "abc234" None "fpA" room_ABC234
                eq_refl eq_refl eq_refl) as H.
  cbv zeta in H. destruct H as [_ [_ Hiff]]. apply Hiff. left. left. reflexivity.
Defined.

(** Witness of [create_room_admin]: socket [s1] creates room [XYZ789]. *)
Lemma create_room_admin_witness :
  (forall ch, In ch (list_ascii_of_string "XYZ789") -> In ch (list_ascii_of_string room_code_chars)) /\
  isSocketAdmin cfg_server (fst (create_room boot_world "s1" "XYZ789" None "fpA" 0)) "s1" = true.
Proof.
  assert (Hc : forall ch, In ch (list_ascii_of_string "XYZ789") ->
                          In ch (list_ascii_of_string room_code_chars)).
  { intros ch Hin. simpl in Hin.
    repeat (destruct Hin as [<-|Hin]; [simpl; tauto|]). contradiction. }
  split; [exact Hc|].
  exact (proj1 (create_room_admin cfg_server boot_world "s1" "XYZ789" None "fpA" 0 eq_refl Hc)).
Defined.

(** Witness of [leave_room_keeps_admin_seat]: the admin [s1] of room
    [ABC234] leaves; the room still names [s1] as admin. *)
Lemma leave_room_keeps_admin_seat_witness :
  JsMap.get "s1" (socketRoomMap server_world) = Some "ABC234" /\
  isSocketAdmin cfg_server (fst (leave_room server_world "s1")) "s1" = false /\
  exists r', getRoom "ABC234" (fst (leave_room server_world "s1")) = Some r' /\
    adminSocketId r' = Some "s1".
Proof.
  split; [reflexivity|].
  pose proof (leave_room_keeps_admin_seat cfg_server server_world "s1" "ABC234" room_ABC234
                eq_refl eq_refl eq_refl) as H.
  cbv zeta in H. destruct H as [_ [Hadm [_ [r' [Hr' [_ [_ [Ha _]]]]]]]].
  split; [exact Hadm|]. exists r'. split; [exact Hr'|exact Ha].
Defined.

(** Witness of [disconnect_server_keeps_admin_seat]: the admin [s1] of
    room [ABC234] disconnects. *)
Lemma disconnect_server_keeps_admin_seat_witness :
  JsMap.get "s1" (socketRoomMap server_world) = Some "ABC234" /\
  exists r', getRoom "ABC234" (fst (disconnect cfg_server server_world "s1")) = Some r' /\
    adminSocketId r' = Some "s1".
Proof.
  split; [reflexivity|].
  pose proof (disconnect_server_keeps_admin_seat cfg_server server_world "s1" "ABC234" room_ABC234
                eq_refl eq_refl eq_refl) as H.
  cbv zeta in H. destruct H as [_ [_ [[r' [Hr' [_ [_ [Ha _]]]]] _]]].
  exists r'. split; [exact Hr'|exact Ha].
Defined.

(** Witness of [disconnect_legacy_forgets]: the admin [adm] of the
    single-room world disconnects. *)
Lemma disconnect_legacy_forgets_witness :
  SERVER_MODE cfg_single = false /\
  is_sid (gAdminSocketId (fst (disconnect cfg_single two_entry_world "adm"))) "adm" = false /\
  PLAYLIST (fst (disconnect cfg_single two_entry_world "adm")) = PLAYLIST two_entry_world.
Proof.
  split; [reflexivity|].
  pose proof (disconnect_legacy_forgets cfg_single two_entry_world "adm" eq_refl) as H.
  cbv zeta in H. destruct H as [_ [Ha [_ [_ [_ [_ [Hp _]]]]]]].
  split; [exact Ha|exact Hp].
Defined.

(** Witness of [bsl_folder_selected_persistent_match]: viewer [v1] of
    [bsl_world] reports [Movie_A.MP4], persistently matched to entry 1. *)
Lemma bsl_folder_selected_persistent_match_witness :
  JsMap.get "cid1" (persistentBslMatches bsl_world) = Some [("movie_a.mp4", "b.mkv")] /\
  exists sc' st,
    resolve cfg_single
      (fst (bsl_folder_selected cfg_single no_disk bsl_world "v1" (Some "cid1") None
              [mkClientFile "Movie_A.MP4" None None])) "v1" false = Some sc' /\
    JsMap.get "v1" (sc_bsl sc') = Some st /\ ZMap.get 1 (matchedVideos st) <> None.
Proof.
  split; [reflexivity|].
  exact (bsl_folder_selected_persistent_match cfg_single no_disk bsl_world "v1"
           (legacy_scope bsl_world) (Some "cid1") None [mkClientFile "Movie_A.MP4" None None]
           (mkClientFile "Movie_A.MP4" None None) 1 (entry "b.mkv") [("movie_a.mp4", "b.mkv")]
           eq_refl eq_refl (or_introl eq_refl) eq_refl eq_refl).
Defined.


(** Witness of [bsl_manual_match_then_folder]: after that manual match,
    [v1] reports [movie_B.mp4]. *)
Lemma bsl_manual_match_then_folder_witness :
  JsMap.get "v1" (gClientBslStatus bsl_world) = Some (mkBslStatus "cid1" "Viewer" false [] []) /\
  exists st,
    JsMap.get "v1" (gClientBslStatus
      (fst (bsl_folder_selected cfg_single no_disk
              (fst (bsl_manual_match cfg_single bsl_world "adm" "v1" "Movie_B.MP4" 1))
              "v1" (Some "cid1") None [mkClientFile "movie_B.mp4" None None]))) = Some st /\
    ZMap.get 1 (matchedVideos st) <> None.
Proof.
  split; [reflexivity|].
  exact (bsl_manual_match_then_folder cfg_single no_disk bsl_world "adm" "v1" "Movie_B.MP4" 1
           (mkBslStatus "cid1" "Viewer" false [] []) (entry "b.mkv") None
           [mkClientFile "movie_B.mp4" None None] (mkClientFile "movie_B.mp4" None None)
           eq_refl eq_refl ltac:(discriminate) eq_refl (or_introl eq_refl) eq_refl).
Defined.

(** Witness of [bsl_check_request_prompts]: the admin [s1] of room
    [ABC234] asks for a BSL check. *)
Lemma bsl_check_request_prompts_witness :
  resolve cfg_server server_world "s1" true = Some (room_scope "ABC234" room_ABC234) /\
  fst (bsl_check_request cfg_server server_world "s1") = server_world.
Proof.
  split; [reflexivity|].
  exact (proj1 (bsl_check_request_prompts cfg_server server_world "s1"
                  (room_scope "ABC234" room_ABC234) eq_refl)).
Defined.

(** Witness of [chat_rename_then_client_list]: viewer [v1] renames itself
    [Bob]; the admin's client list then shows [(v1, fpV, Bob)]. *)
Lemma chat_rename_then_client_list_witness :
  In (NameUpdated "v1" "Bob")
     (snd (chat_message cfg_single true two_entry_world [] "v1" (Some "/rename Bob") None)) /\
  exists fp l,
    JsMap.get "v1" (connectedClients two_entry_world) = Some fp /\
    get_client_list cfg_single two_entry_world
      (fst (chat_message cfg_single true two_entry_world [] "v1" (Some "/rename Bob") None)) "adm"
    = Some l /\ In ("v1", fp, "Bob") l.
Proof.
  assert (Hu : In (NameUpdated "v1" "Bob")
                 (snd (chat_message cfg_single true two_entry_world [] "v1" (Some "/rename Bob") None)))
    by (vm_compute; left; reflexivity).
  split; [exact Hu|].
  exact (chat_rename_then_client_list cfg_single true two_entry_world [] "v1" (Some "/rename Bob")
           None "adm" "v1" "Bob" eq_refl Hu eq_refl).
Defined.

(** ** [videoBslStatus] *)

Lemma len_z_filter_le {A} (f : A -> bool) l : len_z (filter f l) <= len_z l.
Proof. unfold len_z. pose proof (filter_length_le f l). lia. Qed.

Lemma len_z_map {A B} (f : A -> B) l : len_z (map f l) = len_z l.
Proof. unfold len_z. now rewrite length_map. Qed.

Lemma len_z_filter_all {A} (f : A -> bool) l :
  len_z (filter f l) = len_z l <-> forall x, In x l -> f x = true.
Proof.
  unfold len_z. rewrite Nat2Z.inj_iff. split.
  - intros H x Hx. apply (filter_length_forallb f l) in H.
    rewrite forallb_forall in H. exact (H x Hx).
  - intros H. induction l as [|a r IH]; [reflexivity|]. simpl.
    rewrite (H a (or_introl eq_refl)). simpl. f_equal. apply IH. intros x Hx. apply H. right; exact Hx.
Qed.

Lemma filter_length_eq_app {A} (f g : A -> bool) l :
  (forall x, f x = true -> g x = false) ->
  (length (filter f l) + length (filter g l) <= length l)%nat.
Proof.
  intros H. induction l as [|a r IH]; simpl; [lia|].
  destruct (f a) eqn:Ef; [rewrite (H a Ef)|destruct (g a)]; simpl; lia.
Qed.

Lemma has_match_spec i st :
  has_match i st = true <-> exists f, ZMap.get i (matchedVideos st) = Some f /\ f <> "".
Proof.
  unfold has_match. destruct (ZMap.get i (matchedVideos st)) as [f|].
  - rewrite negb_true_iff. split.
    + intros H. exists f. split; [reflexivity|]. intros ->. discriminate.
    + intros [f' [[= <-] Hf]]. apply String.eqb_neq. exact Hf.
  - split; [discriminate|intros [f [H _]]; discriminate].
Qed.

Lemma video_bsl_status_active_iff mode bsl index :
  bslActive (video_bsl_status mode bsl index) = true <->
  if String.eqb mode "all"
  then bsl <> [] /\ forall s st, In (s, st) bsl ->
         exists f, ZMap.get index (matchedVideos st) = Some f /\ f <> ""
  else exists s st, In (s, st) bsl /\
         exists f, ZMap.get index (matchedVideos st) = Some f /\ f <> "".
Proof.
  unfold video_bsl_status. simpl.
  destruct (String.eqb mode "all").
  + rewrite andb_true_iff, Z.ltb_lt, Z.eqb_eq.
    rewrite len_z_map.
    rewrite len_z_filter_all. split.
    * intros [Hn Hall]. split; [intros ->; discriminate|].
      intros s st Hin. apply has_match_spec. exact (Hall (s, st) Hin).
    * intros [Hn Hall]. split.
      -- destruct bsl; [contradiction|]. unfold len_z. simpl. lia.
      -- intros [s st] Hin. apply has_match_spec. exact (Hall s st Hin).
  + rewrite Z.ltb_lt. unfold len_z. rewrite length_map. split.
    * intros H. destruct (filter (fun '(_, st) => has_match index st) bsl) as [|p r] eqn:E;
        [simpl in H; lia|]. destruct p as [s st].
      assert (Hin : In (s, st) (filter (fun '(_, st) => has_match index st) bsl)) by (rewrite E; left; reflexivity).
      apply filter_In in Hin. exists s, st. split; [exact (proj1 Hin)|]. apply has_match_spec, (proj2 Hin).
    * intros [s [st [Hin Hm]]]. apply has_match_spec in Hm.
      assert (Hin' : In (s, st) (filter (fun '(_, st) => has_match index st) bsl))
        by (apply filter_In; split; assumption).
      destruct (filter (fun '(_, st) => has_match index st) bsl); [contradiction|]. simpl. lia.
Qed.

(** In the [bsl-status-update] payload, entry [index] is BSL-active, in
    mode [all], iff there is at least one client status and every client
    status has a non-empty file matched to [index]; in any other mode iff
    some client status has one.  The clients with and without a match add
    up to [totalChecked], which never exceeds the number of statuses. *)
Theorem video_bsl_status_active mode bsl index :
  (bslActive (video_bsl_status mode bsl index) = true <->
   if String.eqb mode "all"
   then bsl <> [] /\ forall s st, In (s, st) bsl ->
          exists f, ZMap.get index (matchedVideos st) = Some f /\ f <> ""
   else exists s st, In (s, st) bsl /\
          exists f, ZMap.get index (matchedVideos st) = Some f /\ f <> "") /\
  totalChecked (video_bsl_status mode bsl index)
  = clientsWithMatch (video_bsl_status mode bsl index)
    + clientsWithoutMatch (video_bsl_status mode bsl index) /\
  0 <= totalChecked (video_bsl_status mode bsl index) <= len_z bsl.
Proof.
  split; [apply video_bsl_status_active_iff|].
  unfold video_bsl_status. simpl. split; [reflexivity|].
  unfold len_z. rewrite !length_map.
  pose proof (filter_length_eq_app (fun '(_, st) => has_match index st)
                (fun '(_, st) => negb (has_match index st) && folderSelected st) bsl) as H.
  assert (H' : forall x : string * BslStatus,
             (let '(_, st) := x in has_match index st) = true ->
             (let '(_, st) := x in negb (has_match index st) && folderSelected st) = false)
    by (intros [s st] Hx; rewrite Hx; reflexivity).
  specialize (H H'). lia.
Qed.

Lemma JsMap_set_In_nodup {V} (k : string) (v : V) m s x :
  NoDup (map fst m) -> In (s, x) (JsMap.set k v m) -> (s = k /\ x = v) \/ (s <> k /\ In (s, x) m).
Proof.
  induction m as [|[k' v'] r IH]; simpl; intros Hnd Hin.
  - destruct Hin as [[= <- <-]|[]]. left; split; reflexivity.
  - inversion Hnd as [|? ? Hk' Hnd']; subst.
    destruct (String.eqb_spec k k') as [->|Hne].
    + destruct Hin as [[= <- <-]|Hin]; [left; split; reflexivity|].
      right. split; [|right; exact Hin].
      intros Hs. apply Hk'. rewrite <- Hs. apply (in_map fst _ (s, x)). exact Hin.
    + destruct Hin as [[= <- <-]|Hin].
      * right. split; [intros ->; congruence|left; reflexivity].
      * destruct (IH Hnd' Hin) as [H|[H1 H2]]; [left; exact H|right; split; [exact H1|right; exact H2]].
Qed.

Lemma JsMap_get_set_In {V} (k : string) (v : V) m : In (k, v) (JsMap.set k v m).
Proof.
  induction m as [|[k' v'] r IH]; simpl; [left; reflexivity|].
  destruct (String.eqb_spec k k') as [->|_]; [left; reflexivity|right; exact IH].
Qed.

(** After a [bsl-manual-match] of a non-empty file name [F] to entry [i],
    the admin's next [bsl-status-update] reports entry [i] as BSL-active
    in any mode other than [all]; in mode [all] it does when the statuses
    have distinct socket ids (as a [Map] has) and every other client
    status already had a match for [i]. *)
Theorem bsl_manual_match_activates cfg w sid sc csid F i cs mode
    (Hres : resolve cfg w sid true = Some sc)
    (Hcs : JsMap.get csid (sc_bsl sc) = Some cs) (HF : F <> "") :
  exists sc', resolve cfg (fst (bsl_manual_match cfg w sid csid F i)) sid true = Some sc' /\
    (0 <= i < len_z (videos (sc_playlist sc)) ->
     In (i, video_bsl_status mode (sc_bsl sc') i) (videoBslStatus mode sc')) /\
    ((String.eqb mode "all" = false \/
      (NoDup (map fst (sc_bsl sc)) /\
       forall s st, In (s, st) (sc_bsl sc) -> s <> csid -> has_match i st = true)) ->
     bslActive (video_bsl_status mode (sc_bsl sc') i) = true).
Proof.
  unfold bsl_manual_match. rewrite Hres, Hcs.
  set (cs' := mkBslStatus (clientId cs) (clientName cs) (folderSelected cs) (files cs)
                (ZMap.set i F (matchedVideos cs))).
  set (sc' := with_bsl sc (JsMap.set csid cs' (sc_bsl sc))).
  assert (Hr' : resolve cfg (commit w sc') sid true = Some sc')
    by (unfold sc', with_bsl; apply resolve_commit; exact Hres).
  exists sc'. split.
  - destruct (nth_z i (videos (sc_playlist sc))); [destruct (String.eqb (clientId cs) "")|];
      simpl fst; try rewrite resolve_set_persistent; exact Hr'.
  - split.
    { intros Hi. unfold videoBslStatus. apply in_map_iff. exists i. split; [reflexivity|].
      apply in_map_iff. exists (Z.to_nat i). split; [apply Z2Nat.id; lia|].
      apply in_seq. unfold sc', len_z in *. simpl. lia. }
    assert (Hm : has_match i cs' = true).
    { apply has_match_spec. exists F. split; [apply ZMap_get_set_same|exact HF]. }
    assert (Hin : In (csid, cs') (sc_bsl sc')) by apply JsMap_get_set_In.
    intros Hcase. apply (proj2 (video_bsl_status_active_iff mode (sc_bsl sc') i)).
    destruct (String.eqb mode "all") eqn:Em.
    + destruct Hcase as [Hc|[Hnd Hall]]; [discriminate|].
      split; [intros Hn; rewrite Hn in Hin; contradiction|].
      intros s st Hs. apply has_match_spec.
      destruct (JsMap_set_In_nodup csid cs' (sc_bsl sc) s st Hnd Hs) as [[-> ->]|[Hne Hs']].
      * exact Hm.
      * exact (Hall s st Hs' Hne).
    + exists csid, cs'. split; [exact Hin|]. apply has_match_spec. exact Hm.
Qed.

(** Witness of [bsl_manual_match_activates]: in mode [all], the admin
    matches [Movie_B.MP4] to entry 1 for [v1], the only client status of
    [bsl_world]. *)
Lemma bsl_manual_match_activates_witness :
  JsMap.get "v1" (gClientBslStatus bsl_world) = Some (mkBslStatus "cid1" "Viewer" false [] []) /\
  exists sc',
    resolve cfg_single (fst (bsl_manual_match cfg_single bsl_world "adm" "v1" "Movie_B.MP4" 1))
      "adm" true = Some sc' /\
    bslActive (video_bsl_status "all" (sc_bsl sc') 1) = true.
Proof.
  split; [reflexivity|].
  destruct (bsl_manual_match_activates cfg_single bsl_world "adm" (legacy_scope bsl_world) "v1"
              "Movie_B.MP4" 1 (mkBslStatus "cid1" "Viewer" false [] []) "all"
              eq_refl eq_refl ltac:(discriminate)) as [sc' [Hr [_ Ha]]].
  exists sc'. split; [exact Hr|]. apply Ha. right. split.
  - simpl. constructor; [simpl; tauto|constructor].
  - intros s st [Hs|[]] Hne. injection Hs as Hs _. symmetry in Hs. contradiction.
Defined.
